(** * util/winutil: launching a process inside the interactive desktop session

    A shallow embedding of [util/winutil/winutil_windows.go].  The package is a
    thin choreography of Win32 and Go-runtime primitives, so a function of the
    package is modelled as a computation that asks the platform for the outcome
    of each primitive and logs the call together with its outcome.  The log is
    what "instrumentation" observes; the theorems are statements about the log
    and the returned value, for every behaviour of the platform. *)

From Stdlib Require Import ZArith List String Ascii Bool Lia DecimalString.
Import ListNotations.

Local Open Scope Z_scope.

(* ===================================================================== *)
(** ** Values *)
(* ===================================================================== *)

(** Go's fixed-width unsigned integers, as [Z] with the wrap-around explicit. *)
Definition uint32 (x : Z) : Z := x mod 2 ^ 32.
Definition uintptr (x : Z) : Z := x mod 2 ^ 64.

Definition Handle := Z.   (* windows.Handle, a uintptr *)
Definition Token := Z.    (* windows.Token, a uintptr *)
Definition HWND := Z.     (* windows.HWND, a uintptr *)
Definition Key := Z.      (* registry.Key, a uintptr *)

(** Go [error] values met by the package.  [nil] is [None] of [option error]. *)
Inductive error : Type :=
| ErrNoShell                                (* the package variable ErrNoShell *)
| EINVAL                                    (* syscall.EINVAL *)
| Errno (code : Z) (text : string)          (* a syscall.Errno and its message *)
| ErrorString (s : string).                 (* what fmt.Errorf / errors.New build *)

(** The [Error()] method. *)
Definition Error (e : error) : string :=
  match e with
  | ErrNoShell => "no Shell process is present"
  | EINVAL => "invalid argument"
  | Errno _ text => text
  | ErrorString s => s
  end.

(** Outcome of a platform primitive that yields a value or an error. *)
Inductive result (A : Type) : Type :=
| Ok (a : A)
| Err (e : error).
Arguments Ok {A} a.
Arguments Err {A} e.

(** [%v] of an unsigned integer. *)
Definition fmt_uint (x : Z) : string :=
  NilEmpty.string_of_uint (N.to_uint (Z.to_N x)).

Record LUID := { LowPart : Z; HighPart : Z }.
Record LUIDAndAttributes := { Luid : LUID; Attributes : Z }.
(** [Privileges] is a Go array of length one; the field holds its only cell. *)
Record Tokenprivileges :=
  { PrivilegeCount : Z; Privileges_0 : LUIDAndAttributes }.

Record SysProcAttr := { ParentProcess : Handle }.
Record Cmd :=
  { Path : string; Args : list string; Env : list string;
    SysProcAttr_ : option SysProcAttr }.

(** Constants of golang.org/x/sys/windows, syscall and registry. *)
Definition TOKEN_ADJUST_PRIVILEGES : Z := 0x20.
Definition TOKEN_QUERY : Z := 0x8.
Definition SE_PRIVILEGE_ENABLED : Z := 0x2.
Definition PROCESS_CREATE_PROCESS : Z := 0x80.
Definition PROCESS_QUERY_INFORMATION : Z := 0x400.
Definition PROCESS_DUP_HANDLE : Z := 0x40.
Definition SecurityImpersonation : Z := 2.
Definition LOCAL_MACHINE : Key := 0x80000002.
Definition READ : Z := 0x20019.
Definition ERROR_FILE_NOT_FOUND : Z := 2.
(** [windows.CurrentThread()] is the pseudo handle [^uintptr(1)]. *)
Definition CurrentThread : Handle := uintptr (-2).

Definition SidTypeUser : Z := 1.
Definition SidTypeGroup : Z := 2.
Definition SidTypeDomain : Z := 3.
Definition SidTypeAlias : Z := 4.
Definition SidTypeWellKnownGroup : Z := 5.
Definition SidTypeDeletedAccount : Z := 6.
Definition SidTypeInvalid : Z := 7.
Definition SidTypeUnknown : Z := 8.
Definition SidTypeComputer : Z := 9.
Definition SidTypeLabel : Z := 10.

Definition regBase : string := "SOFTWARE\Tailscale IPN".
Definition regPolicyBase : string := "SOFTWARE\Policies\Tailscale".

(** [registry.ErrNotExist] is [syscall.ERROR_FILE_NOT_FOUND]; errors of type
    [Errno] compare by their code. *)
Definition is_ErrNotExist (e : error) : bool :=
  match e with
  | Errno c _ => c =? ERROR_FILE_NOT_FOUND
  | _ => false
  end.

(* ===================================================================== *)
(** ** Platform calls and their log *)
(* ===================================================================== *)

(** One entry per primitive the package calls: the arguments as the source
    passes them, and the outcome the platform gave. *)
Inductive event : Type :=
| EvGetShellWindow (hwnd : HWND)
| EvGetWindowThreadProcessId (hwnd : HWND) (pid : Z)
| EvLockOSThread
| EvUnlockOSThread
| EvImpersonateSelf (level : Z) (err : option error)
| EvRevertToSelf (err : option error)
| EvOpenThreadToken (thread : Handle) (access : Z) (openAsSelf : bool)
    (r : result Token)
| EvTokenClose (t : Token) (err : option error)
| EvLookupPrivilegeValue (systemName : option string) (name : string)
    (r : result LUID)
| EvAdjustTokenPrivileges (t : Token) (disableAll : bool)
    (tp : Tokenprivileges) (err : option error)
| EvOpenProcess (access : Z) (inheritHandle : bool) (pid : Z)
    (r : result Handle)
| EvCloseHandle (h : Handle) (err : option error)
| EvOpenProcessToken (ph : Handle) (access : Z) (r : result Token)
| EvTokenEnviron (t : Token) (inheritExisting : bool)
    (r : result (list string))
| EvCmdStart (cmd : Cmd) (err : option error)
| EvRegOpenKey (k : Key) (path : string) (access : Z) (r : result Key)
| EvRegGetStringValue (k : Key) (name : string) (r : result (string * Z))
| EvRegGetIntegerValue (k : Key) (name : string) (r : result (Z * Z))
| EvRegKeyClose (k : Key) (err : option error)
| EvLogPrintf (line : string)
| EvStringToSid (s : string) (r : result Z)
| EvLookupAccount (sid : Z) (systemName : string)
    (r : result (string * string * Z)).

Definition history := list event.

(** The platform decides every outcome.  An outcome may depend on the
    arguments and on everything that was called before (the [history]), which
    covers fault injection at any call of any invocation. *)
Record Platform := {
  os_GetShellWindow : history -> HWND;
  os_GetWindowThreadProcessId : history -> HWND -> Z;
  os_ImpersonateSelf : history -> Z -> option error;
  os_RevertToSelf : history -> option error;
  os_OpenThreadToken : history -> Handle -> Z -> bool -> result Token;
  os_TokenClose : history -> Token -> option error;
  os_LookupPrivilegeValue : history -> option string -> string -> result LUID;
  os_AdjustTokenPrivileges :
    history -> Token -> bool -> Tokenprivileges -> option error;
  os_OpenProcess : history -> Z -> bool -> Z -> result Handle;
  os_CloseHandle : history -> Handle -> option error;
  os_OpenProcessToken : history -> Handle -> Z -> result Token;
  os_TokenEnviron : history -> Token -> bool -> result (list string);
  os_CommandPath : history -> string -> string;
  os_CmdStart : history -> Cmd -> option error;
  os_RegOpenKey : history -> Key -> string -> Z -> result Key;
  os_RegGetStringValue : history -> Key -> string -> result (string * Z);
  os_RegGetIntegerValue : history -> Key -> string -> result (Z * Z);
  os_RegKeyClose : history -> Key -> option error;
  os_StringToSid : history -> string -> result Z;
  os_LookupAccount : history -> Z -> string -> result (string * string * Z)
}.

(* ===================================================================== *)
(** ** Computations *)
(* ===================================================================== *)

(** [M A]: given the platform and the calls made so far, a value and the calls
    made by the computation itself, in order. *)
Definition M (A : Type) : Type := Platform -> history -> A * list event.

Definition ret {A} (a : A) : M A := fun _ _ => (a, []).

Definition bind {A B} (m : M A) (k : A -> M B) : M B :=
  fun P h =>
    let '(a, e1) := m P h in
    let '(b, e2) := k a P (h ++ e1) in
    (b, e1 ++ e2).

(** A primitive: ask the platform, log the call. *)
Definition prim {A} (ask : Platform -> history -> A) (log : A -> event) : M A :=
  fun P h => let a := ask P h in (a, [log a]).

Definition emit (e : event) : M unit := fun _ _ => (tt, [e]).

(** *** Function bodies with [defer]

    A Go function body either goes on with a value or has executed [return];
    [defer] pushes a call that runs, last pushed first, when the function
    returns.  The value a deferred call returns is dropped, as in Go. *)
Inductive outcome (R A : Type) : Type :=
| Next (a : A)
| Returned (r : R).
Arguments Next {R A} a.
Arguments Returned {R A} r.

Definition deferred := M unit.

Definition G (R A : Type) : Type :=
  Platform -> history -> list deferred ->
  outcome R A * list event * list deferred.

Definition gret {R A} (a : A) : G R A := fun _ _ ds => (Next a, [], ds).

Definition gbind {R A B} (m : G R A) (k : A -> G R B) : G R B :=
  fun P h ds =>
    match m P h ds with
    | (Next a, e1, ds1) =>
        let '(o, e2, ds2) := k a P (h ++ e1) ds1 in (o, e1 ++ e2, ds2)
    | (Returned r, e1, ds1) => (Returned r, e1, ds1)
    end.

(** [return r] *)
Definition Return {R A} (r : R) : G R A := fun _ _ ds => (Returned r, [], ds).

(** A call made from a function body. *)
Definition call {R A} (m : M A) : G R A :=
  fun P h ds => let '(a, e) := m P h in (Next a, e, ds).

(** [defer f(...)] *)
Definition defer {R A} (m : M A) : G R unit :=
  fun _ _ ds => (Next tt, [], bind m (fun _ => ret tt) :: ds).

Fixpoint run_deferred (ds : list deferred) (P : Platform) (h : history)
  : list event :=
  match ds with
  | [] => []
  | d :: ds' => let e := snd (d P h) in e ++ run_deferred ds' P (h ++ e)
  end.

(** A whole function: run the body, then the deferred calls. *)
Definition func {R} (body : G R R) : M R :=
  fun P h =>
    let '(o, e1, ds) := body P h [] in
    let r := match o with Next r => r | Returned r => r end in
    (r, e1 ++ run_deferred ds P (h ++ e1)).

Declare Scope go_scope.
Delimit Scope go_scope with go.
Notation "x <- m ;; k" := (gbind m (fun x => k))
  (at level 100, m at next level, right associativity) : go_scope.
Notation "m ;; k" := (gbind m (fun _ => k))
  (at level 100, right associativity) : go_scope.

(** [if err != nil { return f(err) }] *)
Definition checkErr {R} (err : option error) (f : error -> R) : G R unit :=
  match err with
  | Some e => Return (f e)
  | None => gret tt
  end.

(** [v, err := ...; if err != nil { return f(err) }] *)
Definition orReturn {R A} (r : result A) (f : error -> R) : G R A :=
  match r with
  | Ok a => gret a
  | Err e => Return (f e)
  end.

(* ===================================================================== *)
(** ** The primitives, as the package calls them *)
(* ===================================================================== *)

Definition GetShellWindow : M HWND :=
  prim (fun P h => uintptr (os_GetShellWindow P h)) EvGetShellWindow.

(** Yields the value left in [*lpdwProcessId]; the thread id the call returns
    is not used by the package. *)
Definition GetWindowThreadProcessId (hwnd : HWND) : M Z :=
  prim (fun P h => uint32 (os_GetWindowThreadProcessId P h hwnd))
       (EvGetWindowThreadProcessId hwnd).

Definition LockOSThread : M unit := emit EvLockOSThread.
Definition UnlockOSThread : M unit := emit EvUnlockOSThread.

Definition ImpersonateSelf (level : Z) : M (option error) :=
  prim (fun P h => os_ImpersonateSelf P h level) (EvImpersonateSelf level).

Definition RevertToSelf : M (option error) :=
  prim (fun P h => os_RevertToSelf P h) EvRevertToSelf.

Definition OpenThreadToken (th : Handle) (access : Z) (openAsSelf : bool)
  : M (result Token) :=
  prim (fun P h => os_OpenThreadToken P h th access openAsSelf)
       (EvOpenThreadToken th access openAsSelf).

Definition Token_Close (t : Token) : M (option error) :=
  prim (fun P h => os_TokenClose P h t) (EvTokenClose t).

Definition LookupPrivilegeValue (systemName : option string) (name : string)
  : M (result LUID) :=
  prim (fun P h => os_LookupPrivilegeValue P h systemName name)
       (EvLookupPrivilegeValue systemName name).

Definition AdjustTokenPrivileges (t : Token) (disableAll : bool)
  (tp : Tokenprivileges) : M (option error) :=
  prim (fun P h => os_AdjustTokenPrivileges P h t disableAll tp)
       (EvAdjustTokenPrivileges t disableAll tp).

Definition OpenProcess (access : Z) (inheritHandle : bool) (pid : Z)
  : M (result Handle) :=
  prim (fun P h => os_OpenProcess P h access inheritHandle pid)
       (EvOpenProcess access inheritHandle pid).

Definition CloseHandle (hd : Handle) : M (option error) :=
  prim (fun P h => os_CloseHandle P h hd) (EvCloseHandle hd).

Definition OpenProcessToken (ph : Handle) (access : Z) : M (result Token) :=
  prim (fun P h => os_OpenProcessToken P h ph access)
       (EvOpenProcessToken ph access).

Definition Token_Environ (t : Token) (inheritExisting : bool)
  : M (result (list string)) :=
  prim (fun P h => os_TokenEnviron P h t inheritExisting)
       (EvTokenEnviron t inheritExisting).

Definition Cmd_Start (cmd : Cmd) : M (option error) :=
  prim (fun P h => os_CmdStart P h cmd) (EvCmdStart cmd).

(** [exec.Command(name)] with no further arguments.  [Args] is the name as
    given.  [Path] is what the library resolves the name to: the name itself
    when it holds a path separator, otherwise what its search of the path
    finds (the name again when the search fails; [Start] then reports the
    error of the search).  The resolution reads the file system and belongs
    to the platform: [os_CommandPath] is the path stored.  It opens no handle
    and is not among the calls the log records. *)
Definition exec_Command (name : string) : M Cmd :=
  fun P h =>
    ({| Path := os_CommandPath P h name; Args := [name]; Env := [];
        SysProcAttr_ := None |}, []).

(** [syscall.UTF16PtrFromString]: fails with [EINVAL] on a string that holds a
    NUL; the pointer is represented by the string it points to. *)
Fixpoint has_NUL (s : string) : bool :=
  match s with
  | EmptyString => false
  | String c s' => if Ascii.eqb c Ascii.zero then true else has_NUL s'
  end.

Definition UTF16PtrFromString (s : string) : result string :=
  if has_NUL s then Err EINVAL else Ok s.

Definition registry_OpenKey (k : Key) (path : string) (access : Z)
  : M (result Key) :=
  prim (fun P h => os_RegOpenKey P h k path access) (EvRegOpenKey k path access).

Definition Key_GetStringValue (k : Key) (name : string)
  : M (result (string * Z)) :=
  prim (fun P h => os_RegGetStringValue P h k name) (EvRegGetStringValue k name).

Definition Key_GetIntegerValue (k : Key) (name : string)
  : M (result (Z * Z)) :=
  prim (fun P h => os_RegGetIntegerValue P h k name)
       (EvRegGetIntegerValue k name).

Definition Key_Close (k : Key) : M (option error) :=
  prim (fun P h => os_RegKeyClose P h k) (EvRegKeyClose k).

Definition log_Printf (line : string) : M unit := emit (EvLogPrintf line).

Definition StringToSid (s : string) : M (result Z) :=
  prim (fun P h => os_StringToSid P h s) (EvStringToSid s).

Definition SID_LookupAccount (sid : Z) (systemName : string)
  : M (result (string * string * Z)) :=
  prim (fun P h => os_LookupAccount P h sid systemName)
       (EvLookupAccount sid systemName).

(* ===================================================================== *)
(** ** The package *)
(* ===================================================================== *)

Local Open Scope string_scope.
Local Open Scope Z_scope.
Local Open Scope go_scope.

(** func GetDesktopPID() (uint32, error) *)
Definition GetDesktopPID : M (Z * option error) :=
  func (
    hwnd <- call GetShellWindow ;;
    (if hwnd =? 0 then Return (0, Some ErrNoShell) else gret tt) ;;
    pid <- call (GetWindowThreadProcessId hwnd) ;;
    (if pid =? 0
     then Return (0, Some (ErrorString ("invalid PID for HWND " ++ fmt_uint hwnd)))
     else gret tt) ;;
    Return (pid, None)).

(** func getRegStringInternal(subKey, name string) (string, error) *)
Definition getRegStringInternal (subKey name : string)
  : M (string * option error) :=
  func (
    r <- call (registry_OpenKey LOCAL_MACHINE subKey READ) ;;
    key <- match r with
           | Ok key => gret key
           | Err err =>
               call (log_Printf ("registry.OpenKey(" ++ subKey ++ "): " ++ Error err)) ;;
               Return (EmptyString, Some err)
           end ;;
    defer (Key_Close key) ;;
    r <- call (Key_GetStringValue key name) ;;
    match r with
    | Ok (val, _) => Return (val, None)
    | Err err =>
        (if negb (is_ErrNotExist err)
         then call (log_Printf ("registry.GetStringValue(" ++ name ++ "): " ++ Error err))
         else gret tt) ;;
        Return (EmptyString, Some err)
    end).

(** func getRegIntegerInternal(subKey, name string) (uint64, error) *)
Definition getRegIntegerInternal (subKey name : string)
  : M (Z * option error) :=
  func (
    r <- call (registry_OpenKey LOCAL_MACHINE subKey READ) ;;
    key <- match r with
           | Ok key => gret key
           | Err err =>
               call (log_Printf ("registry.OpenKey(" ++ subKey ++ "): " ++ Error err)) ;;
               Return (0, Some err)
           end ;;
    defer (Key_Close key) ;;
    r <- call (Key_GetIntegerValue key name) ;;
    match r with
    | Ok (val, _) => Return (val, None)
    | Err err =>
        (if negb (is_ErrNotExist err)
         then call (log_Printf ("registry.GetIntegerValue(" ++ name ++ "): " ++ Error err))
         else gret tt) ;;
        Return (0, Some err)
    end).

(** func getRegString(name, defval string) string *)
Definition getRegString (name defval : string) : M string :=
  func (
    r <- call (getRegStringInternal regBase name) ;;
    match snd r with
    | Some _ => Return defval
    | None => Return (fst r)
    end).

(** func getRegInteger(name string, defval uint64) uint64 *)
Definition getRegInteger (name : string) (defval : Z) : M Z :=
  func (
    r <- call (getRegIntegerInternal regBase name) ;;
    match snd r with
    | Some _ => Return defval
    | None => Return (fst r)
    end).

(** func getPolicyString(name, defval string) string *)
Definition getPolicyString (name defval : string) : M string :=
  func (
    r <- call (getRegStringInternal regPolicyBase name) ;;
    match snd r with
    | Some _ =>
        (* Fall back to the legacy path *)
        s <- call (getRegString name defval) ;;
        Return s
    | None => Return (fst r)
    end).

(** func getPolicyInteger(name string, defval uint64) uint64 *)
Definition getPolicyInteger (name : string) (defval : Z) : M Z :=
  func (
    r <- call (getRegIntegerInternal regPolicyBase name) ;;
    match snd r with
    | Some _ =>
        (* Fall back to the legacy path *)
        i <- call (getRegInteger name defval) ;;
        Return i
    | None => Return (fst r)
    end).

(** func isSIDValidPrincipal(uid string) bool *)
Definition isSIDValidPrincipal (uid : string) : M bool :=
  func (
    r <- call (StringToSid uid) ;;
    usid <- orReturn r (fun _ => false) ;;
    r <- call (SID_LookupAccount usid EmptyString) ;;
    acc <- orReturn r (fun _ => false) ;;
    let accType := snd acc in
    if (accType =? SidTypeUser) || (accType =? SidTypeGroup)
       || (accType =? SidTypeDomain) || (accType =? SidTypeAlias)
       || (accType =? SidTypeWellKnownGroup) || (accType =? SidTypeComputer)
    then Return true
    else
      (* Reject deleted users, invalid SIDs, unknown SIDs, mandatory label
         SIDs, etc. *)
      Return false).

(** func EnableCurrentThreadPrivilege(name string) error *)
Definition EnableCurrentThreadPrivilege (name : string) : M (option error) :=
  func (
    r <- call (OpenThreadToken CurrentThread
                 (Z.lor TOKEN_QUERY TOKEN_ADJUST_PRIVILEGES) false) ;;
    t <- orReturn r Some ;;
    defer (Token_Close t) ;;
    privStr <- orReturn (UTF16PtrFromString name) Some ;;
    r <- call (LookupPrivilegeValue None privStr) ;;
    luid <- orReturn r Some ;;
    let tp :=
      {| PrivilegeCount := 1;
         Privileges_0 := {| Luid := luid; Attributes := SE_PRIVILEGE_ENABLED |} |} in
    err <- call (AdjustTokenPrivileges t false tp) ;;
    Return err).

(** func StartProcessAsChild(parentPID uint32, exePath string, extraEnv []string) error *)
Definition StartProcessAsChild (parentPID : Z) (exePath : string)
  (extraEnv : list string) : M (option error) :=
  func (
    call LockOSThread ;;
    defer UnlockOSThread ;;
    err <- call (ImpersonateSelf SecurityImpersonation) ;;
    checkErr err Some ;;
    defer RevertToSelf ;;
    err <- call (EnableCurrentThreadPrivilege "SeDebugPrivilege") ;;
    checkErr err Some ;;
    r <- call (OpenProcess
                 (Z.lor (Z.lor PROCESS_CREATE_PROCESS PROCESS_QUERY_INFORMATION)
                        PROCESS_DUP_HANDLE)
                 false parentPID) ;;
    ph <- orReturn r Some ;;
    defer (CloseHandle ph) ;;
    r <- call (OpenProcessToken ph TOKEN_QUERY) ;;
    pt <- orReturn r Some ;;
    defer (Token_Close pt) ;;
    r <- call (Token_Environ pt false) ;;
    env <- orReturn r Some ;;
    let env := (env ++ extraEnv)%list in
    let sys := {| ParentProcess := ph |} in
    cmd <- call (exec_Command exePath) ;;
    let cmd := {| Path := Path cmd; Args := Args cmd; Env := env;
                  SysProcAttr_ := SysProcAttr_ cmd |} in
    let cmd := {| Path := Path cmd; Args := Args cmd; Env := Env cmd;
                  SysProcAttr_ := Some sys |} in
    err <- call (Cmd_Start cmd) ;;
    Return err).

(** func StartProcessAsCurrentGUIUser(exePath string, extraEnv []string) error *)
Definition StartProcessAsCurrentGUIUser (exePath : string)
  (extraEnv : list string) : M (option error) :=
  func (
    r <- call GetDesktopPID ;;
    let desktop := fst r in
    checkErr (snd r)
      (fun err => Some (ErrorString ("failed to find desktop: " ++ Error err))) ;;
    err <- call (StartProcessAsChild desktop exePath extraEnv) ;;
    checkErr err
      (fun err => Some (ErrorString ("failed to start executable: " ++ Error err))) ;;
    Return None).

(* ===================================================================== *)
(** ** Exit paths *)
(* ===================================================================== *)

Local Close Scope string_scope.
Local Close Scope go_scope.

Definition result_of {A} (m : M A) (P : Platform) (h : history) : A :=
  fst (m P h).
Definition calls_of {A} (m : M A) (P : Platform) (h : history) : list event :=
  snd (m P h).

(** The one privilege set [EnableCurrentThreadPrivilege] hands to
    [AdjustTokenPrivileges]. *)
Definition tp_enable (luid : LUID) : Tokenprivileges :=
  {| PrivilegeCount := 1;
     Privileges_0 := {| Luid := luid; Attributes := SE_PRIVILEGE_ENABLED |} |}.

Definition thread_token_access : Z := Z.lor TOKEN_QUERY TOKEN_ADJUST_PRIVILEGES.

(** The exit paths of [EnableCurrentThreadPrivilege]: returned value and calls
    made, one constructor per [return] of the source. *)
Inductive ECTP_path (name : string) : option error -> list event -> Prop :=
| ECTP_no_token e :
    ECTP_path name (Some e)
      [EvOpenThreadToken CurrentThread thread_token_access false (Err e)]
| ECTP_bad_name t c :
    has_NUL name = true ->
    ECTP_path name (Some EINVAL)
      [EvOpenThreadToken CurrentThread thread_token_access false (Ok t);
       EvTokenClose t c]
| ECTP_lookup_failed t e c :
    has_NUL name = false ->
    ECTP_path name (Some e)
      [EvOpenThreadToken CurrentThread thread_token_access false (Ok t);
       EvLookupPrivilegeValue None name (Err e);
       EvTokenClose t c]
| ECTP_adjusted t luid r c :
    has_NUL name = false ->
    ECTP_path name r
      [EvOpenThreadToken CurrentThread thread_token_access false (Ok t);
       EvLookupPrivilegeValue None name (Ok luid);
       EvAdjustTokenPrivileges t false (tp_enable luid) r;
       EvTokenClose t c].

Definition spawn_access : Z :=
  Z.lor (Z.lor PROCESS_CREATE_PROCESS PROCESS_QUERY_INFORMATION)
        PROCESS_DUP_HANDLE.

(** The command a run hands to [Start]: [path] is what [exec.Command]
    resolved [exePath] to. *)
Definition spawn_cmd (path exePath : string) (env : list string) (ph : Handle)
  : Cmd :=
  {| Path := path; Args := [exePath]; Env := env;
     SysProcAttr_ := Some {| ParentProcess := ph |} |}.

(** The error [GetDesktopPID] builds with
    [fmt.Errorf("invalid PID for HWND %v", hwnd)]. *)
Definition invalid_pid_error (hwnd : HWND) : error :=
  ErrorString ("invalid PID for HWND " ++ fmt_uint hwnd).

Definition SeDebugPrivilege : string := "SeDebugPrivilege".

(** The exit paths of [StartProcessAsChild]. *)
Inductive SPAC_path (parentPID : Z) (exePath : string) (extraEnv : list string)
  : option error -> list event -> Prop :=
| SPAC_impersonate_failed e :
    SPAC_path parentPID exePath extraEnv (Some e)
      [EvLockOSThread; EvImpersonateSelf SecurityImpersonation (Some e);
       EvUnlockOSThread]
| SPAC_elevate_failed el e c :
    ECTP_path SeDebugPrivilege (Some e) el ->
    SPAC_path parentPID exePath extraEnv (Some e)
      ([EvLockOSThread; EvImpersonateSelf SecurityImpersonation None] ++ el ++
       [EvRevertToSelf c; EvUnlockOSThread])
| SPAC_open_process_failed el e c :
    ECTP_path SeDebugPrivilege None el ->
    SPAC_path parentPID exePath extraEnv (Some e)
      ([EvLockOSThread; EvImpersonateSelf SecurityImpersonation None] ++ el ++
       [EvOpenProcess spawn_access false parentPID (Err e);
        EvRevertToSelf c; EvUnlockOSThread])
| SPAC_open_token_failed el ph e c1 c2 :
    ECTP_path SeDebugPrivilege None el ->
    SPAC_path parentPID exePath extraEnv (Some e)
      ([EvLockOSThread; EvImpersonateSelf SecurityImpersonation None] ++ el ++
       [EvOpenProcess spawn_access false parentPID (Ok ph);
        EvOpenProcessToken ph TOKEN_QUERY (Err e);
        EvCloseHandle ph c1; EvRevertToSelf c2; EvUnlockOSThread])
| SPAC_environ_failed el ph pt e c1 c2 c3 :
    ECTP_path SeDebugPrivilege None el ->
    SPAC_path parentPID exePath extraEnv (Some e)
      ([EvLockOSThread; EvImpersonateSelf SecurityImpersonation None] ++ el ++
       [EvOpenProcess spawn_access false parentPID (Ok ph);
        EvOpenProcessToken ph TOKEN_QUERY (Ok pt);
        EvTokenEnviron pt false (Err e);
        EvTokenClose pt c1; EvCloseHandle ph c2; EvRevertToSelf c3;
        EvUnlockOSThread])
| SPAC_started el ph pt env path r c1 c2 c3 :
    ECTP_path SeDebugPrivilege None el ->
    SPAC_path parentPID exePath extraEnv r
      ([EvLockOSThread; EvImpersonateSelf SecurityImpersonation None] ++ el ++
       [EvOpenProcess spawn_access false parentPID (Ok ph);
        EvOpenProcessToken ph TOKEN_QUERY (Ok pt);
        EvTokenEnviron pt false (Ok env);
        EvCmdStart (spawn_cmd path exePath (env ++ extraEnv) ph) r;
        EvTokenClose pt c1; EvCloseHandle ph c2; EvRevertToSelf c3;
        EvUnlockOSThread]).


(* ===================================================================== *)
(** ** Reading the log *)
(* ===================================================================== *)

(** The error a call reported, for the calls whose error the package looks
    at.  The error of a release ([Close], [CloseHandle], [RevertToSelf]) is
    dropped by the [defer] that issued it. *)
Definition failure_of (ev : event) : option error :=
  match ev with
  | EvImpersonateSelf _ (Some e) => Some e
  | EvOpenThreadToken _ _ _ (Err e) => Some e
  | EvLookupPrivilegeValue _ _ (Err e) => Some e
  | EvAdjustTokenPrivileges _ _ _ (Some e) => Some e
  | EvOpenProcess _ _ _ (Err e) => Some e
  | EvOpenProcessToken _ _ (Err e) => Some e
  | EvTokenEnviron _ _ (Err e) => Some e
  | EvCmdStart _ (Some e) => Some e
  | _ => None
  end.

(** The calls that give something back: handle closes, the end of the
    impersonation, the end of the thread pin. *)
Definition is_release (ev : event) : bool :=
  match ev with
  | EvTokenClose _ _ | EvCloseHandle _ _ | EvRevertToSelf _
  | EvUnlockOSThread => true
  | _ => false
  end.

(** The step of the spawn sequence a call belongs to.  Steps 6 and 7 (merging
    the environment, designating the parent) make no call; they show in the
    argument of the call of step 8. *)
Definition step_of (ev : event) : option nat :=
  match ev with
  | EvImpersonateSelf _ _ => Some 1%nat
  | EvOpenThreadToken _ _ _ _ | EvLookupPrivilegeValue _ _ _
  | EvAdjustTokenPrivileges _ _ _ _ => Some 2%nat
  | EvOpenProcess _ _ _ _ => Some 3%nat
  | EvOpenProcessToken _ _ _ => Some 4%nat
  | EvTokenEnviron _ _ _ => Some 5%nat
  | EvCmdStart _ _ => Some 8%nat
  | _ => None
  end.

(** The steps a log went through, each listed once, in the order met. *)
Fixpoint steps_from (last : option nat) (evs : list event) : list nat :=
  match evs with
  | [] => []
  | ev :: evs' =>
      match step_of ev with
      | None => steps_from last evs'
      | Some n =>
          if match last with Some m => Nat.eqb m n | None => false end
          then steps_from last evs'
          else n :: steps_from (Some n) evs'
      end
  end.
Definition steps_run (evs : list event) : list nat := steps_from None evs.

Definition all_steps : list nat := [1; 2; 3; 4; 5; 8]%nat.

(** The error of the first call that failed. *)
Fixpoint first_failure (evs : list event) : option error :=
  match evs with
  | [] => None
  | ev :: evs' =>
      match failure_of ev with
      | Some e => Some e
      | None => first_failure evs'
      end
  end.

(** After the first call that failed, nothing but releases. *)
Fixpoint aborts_at_first_failure (evs : list event) : bool :=
  match evs with
  | [] => true
  | ev :: evs' =>
      match failure_of ev with
      | Some _ => forallb is_release evs'
      | None => aborts_at_first_failure evs'
      end
  end.

Definition elevation_failed (ev : event) : bool :=
  match step_of ev, failure_of ev with
  | Some 2%nat, Some _ => true
  | _, _ => false
  end.

Definition is_OpenProcess (ev : event) : bool :=
  match ev with EvOpenProcess _ _ _ _ => true | _ => false end.

Definition is_RevertToSelf (ev : event) : bool :=
  match ev with EvRevertToSelf _ => true | _ => false end.

Definition is_elevation (ev : event) : bool :=
  match step_of ev with Some 2%nat => true | _ => false end.

(** Every call of the privilege elevation lies between a successful
    [ImpersonateSelf] and the next [RevertToSelf].  [open] tells whether the
    scope is open where the log starts. *)
Fixpoint elevation_inside_scope (open : bool) (evs : list event) : bool :=
  match evs with
  | [] => true
  | ev :: evs' =>
      match ev with
      | EvImpersonateSelf _ None => elevation_inside_scope true evs'
      | EvRevertToSelf _ => elevation_inside_scope false evs'
      | _ => (if is_elevation ev then open else true)
             && elevation_inside_scope open evs'
      end
  end.

(** Every call of the privilege elevation has a [RevertToSelf] after it. *)
Fixpoint elevation_reverted (evs : list event) : bool :=
  match evs with
  | [] => true
  | ev :: evs' =>
      (if is_elevation ev then existsb is_RevertToSelf evs' else true)
      && elevation_reverted evs'
  end.

(** *** Handles *)

Fixpoint remove_one (x : Handle) (l : list Handle) : option (list Handle) :=
  match l with
  | [] => None
  | y :: l' =>
      if y =? x then Some l'
      else match remove_one x l' with
           | Some r => Some (y :: r)
           | None => None
           end
  end.

(** The handle a call acquired, if it did. *)
Definition acquired (ev : event) : option Handle :=
  match ev with
  | EvOpenThreadToken _ _ _ (Ok t) => Some t
  | EvOpenProcess _ _ _ (Ok ph) => Some ph
  | EvOpenProcessToken _ _ (Ok t) => Some t
  | _ => None
  end.

(** The handle a call released.  [Token.Close] is [CloseHandle] on the token. *)
Definition released (ev : event) : option Handle :=
  match ev with
  | EvTokenClose t _ => Some t
  | EvCloseHandle hd _ => Some hd
  | _ => None
  end.

(** Replays the acquisitions and releases of a log over the handles that are
    open: an acquisition adds its handle, a release takes one matching open
    handle away and is an error ([None]) when there is none. *)
Fixpoint live_handles (open : list Handle) (evs : list event)
  : option (list Handle) :=
  match evs with
  | [] => Some open
  | ev :: evs' =>
      match acquired ev, released ev with
      | Some x, _ => live_handles (x :: open) evs'
      | None, Some x =>
          match remove_one x open with
          | Some open' => live_handles open' evs'
          | None => None
          end
      | None, None => live_handles open evs'
      end
  end.

(** How often a log acquires, and releases, the handle [x]. *)
Definition acquires (x : Handle) (ev : event) : bool :=
  match acquired ev with Some y => y =? x | None => false end.
Definition releases (x : Handle) (ev : event) : bool :=
  match acquired ev, released ev with
  | None, Some y => y =? x
  | _, _ => false
  end.
Definition acquisitions (x : Handle) (evs : list event) : nat :=
  List.length (filter (acquires x) evs).
Definition releasings (x : Handle) (evs : list event) : nat :=
  List.length (filter (releases x) evs).

(** *** Thread pin *)

(** Replays [LockOSThread] / [UnlockOSThread] as the runtime counts them and
    checks that every other call is made while the count is positive. *)
Fixpoint pinned_throughout (depth : nat) (evs : list event) : bool :=
  match evs with
  | [] => true
  | EvLockOSThread :: evs' => pinned_throughout (S depth) evs'
  | EvUnlockOSThread :: evs' => pinned_throughout (Nat.pred depth) evs'
  | _ :: evs' => Nat.ltb 0 depth && pinned_throughout depth evs'
  end.

Fixpoint lock_depth (depth : nat) (evs : list event) : nat :=
  match evs with
  | [] => depth
  | EvLockOSThread :: evs' => lock_depth (S depth) evs'
  | EvUnlockOSThread :: evs' => lock_depth (Nat.pred depth) evs'
  | _ :: evs' => lock_depth depth evs'
  end.

(** The Go runtime may move a goroutine to another OS thread between any two
    of its calls, unless the goroutine holds the thread lock.  [sched past] is
    the thread the scheduler would pick after the calls [past]; [runs_on]
    pairs every call of a log with the thread it is made on. *)
Fixpoint runs_on (sched : list event -> Z) (depth : nat) (cur : Z)
  (past evs : list event) : list (event * Z) :=
  match evs with
  | [] => []
  | ev :: evs' =>
      let tid := if Nat.eqb depth 0 then sched past else cur in
      let depth' :=
        match ev with
        | EvLockOSThread => S depth
        | EvUnlockOSThread => Nat.pred depth
        | _ => depth
        end in
      (ev, tid) :: runs_on sched depth' tid (past ++ [ev]) evs'
  end.

(** A scheduler that moves the goroutine at every opportunity. *)
Definition restless (past : list event) : Z := Z.of_nat (List.length past).

(* ===================================================================== *)
(** ** The security context the calls act on *)
(* ===================================================================== *)

(** What the token primitives do to the security context of the caller, after
    the Win32 contract of [ImpersonateSelf], [RevertToSelf], [OpenThreadToken],
    [OpenProcess], [OpenProcessToken] and [AdjustTokenPrivileges].  The process
    has a primary token (its ambient context); the pinned thread may carry an
    impersonation token on top of it; a token handle designates one of them,
    and an adjustment changes the token its handle designates. *)
Inductive object : Type :=
| ThreadTok                 (* the impersonation token of the calling thread *)
| PrimaryTok (pid : Z)      (* the primary token of process [pid] *)
| Proc (pid : Z).           (* process [pid] *)

Record SecState := {
  self : Z;                             (* id of the calling process *)
  ambient : list LUID;                  (* privileges enabled in its primary token *)
  impersonation : option (list LUID);   (* the same for the thread's
                                           impersonation token, when it has one *)
  handles : list (Handle * object)      (* what the open handles designate *)
}.

Definition LUID_eqb (a b : LUID) : bool :=
  (LowPart a =? LowPart b) && (HighPart a =? HighPart b).

Fixpoint designates (x : Handle) (l : list (Handle * object)) : option object :=
  match l with
  | [] => None
  | (k, o) :: l' => if k =? x then Some o else designates x l'
  end.

Definition forget (x : Handle) (l : list (Handle * object))
  : list (Handle * object) :=
  filter (fun p => negb (fst p =? x)) l.

(** The enabled privileges of a token after [AdjustTokenPrivileges]. *)
Definition adjust (disableAll : bool) (tp : Tokenprivileges) (privs : list LUID)
  : list LUID :=
  if disableAll then []
  else if PrivilegeCount tp =? 0 then privs
  else
    let p := Privileges_0 tp in
    if Z.testbit (Attributes p) 1
    then Luid p :: privs
    else filter (fun q => negb (LUID_eqb q (Luid p))) privs.

Definition with_handles (s : SecState) (l : list (Handle * object)) : SecState :=
  {| self := self s; ambient := ambient s; impersonation := impersonation s;
     handles := l |}.

Definition apply_event (s : SecState) (ev : event) : SecState :=
  match ev with
  | EvImpersonateSelf _ None =>
      {| self := self s; ambient := ambient s;
         impersonation := Some (ambient s); handles := handles s |}
  | EvRevertToSelf None =>
      {| self := self s; ambient := ambient s;
         impersonation := None; handles := handles s |}
  | EvOpenThreadToken th _ _ (Ok t) =>
      if th =? CurrentThread
      then with_handles s ((t, ThreadTok) :: forget t (handles s))
      else with_handles s (forget t (handles s))
  | EvOpenProcess _ _ pid (Ok ph) =>
      with_handles s ((ph, Proc pid) :: forget ph (handles s))
  | EvOpenProcessToken ph _ (Ok t) =>
      match designates ph (handles s) with
      | Some (Proc pid) =>
          with_handles s ((t, PrimaryTok pid) :: forget t (handles s))
      | _ => with_handles s (forget t (handles s))
      end
  | EvTokenClose x _ | EvCloseHandle x _ => with_handles s (forget x (handles s))
  | EvAdjustTokenPrivileges t disableAll tp None =>
      match designates t (handles s) with
      | Some ThreadTok =>
          {| self := self s; ambient := ambient s;
             impersonation :=
               option_map (adjust disableAll tp) (impersonation s);
             handles := handles s |}
      | Some (PrimaryTok pid) =>
          if pid =? self s
          then {| self := self s;
                  ambient := adjust disableAll tp (ambient s);
                  impersonation := impersonation s; handles := handles s |}
          else s
      | _ => s
      end
  | _ => s
  end.

Definition replay (s : SecState) (evs : list event) : SecState :=
  fold_left apply_event evs s.

(** Every [AdjustTokenPrivileges] of the log is applied to a handle that, at
    that point, designates the impersonation token of the thread, and the
    thread is impersonating then. *)
Fixpoint adjusts_thread_token (s : SecState) (evs : list event) : bool :=
  match evs with
  | [] => true
  | ev :: evs' =>
      match ev with
      | EvAdjustTokenPrivileges t _ _ _ =>
          match designates t (handles s), impersonation s with
          | Some ThreadTok, Some _ => true
          | _, _ => false
          end
      | _ => true
      end && adjusts_thread_token (apply_event s ev) evs'
  end.

Definition is_AdjustTokenPrivileges (ev : event) : bool :=
  match ev with EvAdjustTokenPrivileges _ _ _ _ => true | _ => false end.

Definition opens_key (path : string) (ev : event) : bool :=
  match ev with
  | EvRegOpenKey _ p _ _ => String.eqb p path
  | _ => false
  end.

(** The calls the desktop locator makes. *)
Definition is_locator_call (ev : event) : bool :=
  match ev with
  | EvGetShellWindow _ | EvGetWindowThreadProcessId _ _ => true
  | _ => false
  end.

(** How [StartProcessAsCurrentGUIUser] wraps the error of each of its parts. *)
Definition find_desktop_error (err : error) : error :=
  ErrorString ("failed to find desktop: " ++ Error err).
Definition start_executable_error (err : error) : error :=
  ErrorString ("failed to start executable: " ++ Error err).

(** The account types [isSIDValidPrincipal] accepts, and the named ones it
    rejects. *)
Definition principal_types : list Z :=
  [SidTypeUser; SidTypeGroup; SidTypeDomain; SidTypeAlias;
   SidTypeWellKnownGroup; SidTypeComputer].
Definition rejected_types : list Z :=
  [SidTypeDeletedAccount; SidTypeInvalid; SidTypeUnknown; SidTypeLabel].

(* ===================================================================== *)
(** ** Sample platforms *)
(* ===================================================================== *)

(** Where a sample platform fails. *)
Inductive fault : Type :=
| NoFault
| NoShellWindow | NoWindowProcess
| FailImpersonateSelf | FailOpenThreadToken | FailLookupPrivilegeValue
| FailAdjustTokenPrivileges | FailOpenProcess | FailOpenProcessToken
| FailEnviron | FailStart
| FailStringToSid | FailLookupAccount.

Definition fault_eqb (a b : fault) : bool :=
  match a, b with
  | NoFault, NoFault | NoShellWindow, NoShellWindow
  | NoWindowProcess, NoWindowProcess
  | FailImpersonateSelf, FailImpersonateSelf
  | FailOpenThreadToken, FailOpenThreadToken
  | FailLookupPrivilegeValue, FailLookupPrivilegeValue
  | FailAdjustTokenPrivileges, FailAdjustTokenPrivileges
  | FailOpenProcess, FailOpenProcess
  | FailOpenProcessToken, FailOpenProcessToken
  | FailEnviron, FailEnviron | FailStart, FailStart
  | FailStringToSid, FailStringToSid
  | FailLookupAccount, FailLookupAccount => true
  | _, _ => false
  end.

Definition ERROR_ACCESS_DENIED : error := Errno 5 "Access is denied.".
Definition ERROR_NOT_FOUND : error :=
  Errno 2 "The system cannot find the file specified.".

Definition fresh_handle (h : history) : Handle :=
  0x100 + 4 * Z.of_nat (List.length h).

Definition policy_key : Key := 0x200.
Definition legacy_key : Key := 0x204.

Definition or_not_found {A} (o : option A) : result (A * Z) :=
  match o with
  | Some a => Ok (a, 1)
  | None => Err ERROR_NOT_FOUND
  end.

(** How the sample machine resolves a program name: a name with a path
    separator is its own path, a bare name is found in the system
    directory. *)
Fixpoint has_separator (s : string) : bool :=
  match s with
  | EmptyString => false
  | String c s' =>
      if Ascii.eqb c "\"%char || Ascii.eqb c "/"%char then true
      else has_separator s'
  end.

Definition resolve_in_system32 (_ : history) (name : string) : string :=
  if has_separator name then name
  else ("C:\Windows\System32\" ++ name)%string.

(** A machine with a desktop shell owned by process 4242 whose user has the
    environment [A=1; B=2]; it fails at [f] and nowhere else.  The registry
    holds the given values, under every name, in the policy and in the legacy
    key; accounts resolve to the type [accType]. *)
Definition sample (f : fault)
  (policyS legacyS : option string) (policyI legacyI : option Z)
  (accType : Z) : Platform :=
  let fails {A} (g : fault) (a : A) : result A :=
    if fault_eqb f g then Err ERROR_ACCESS_DENIED else Ok a in
  let refuses (g : fault) : option error :=
    if fault_eqb f g then Some ERROR_ACCESS_DENIED else None in
  {| os_GetShellWindow := fun _ => if fault_eqb f NoShellWindow then 0 else 0x10010;
     os_GetWindowThreadProcessId :=
       fun _ _ => if fault_eqb f NoWindowProcess then 0 else 4242;
     os_ImpersonateSelf := fun _ _ => refuses FailImpersonateSelf;
     os_RevertToSelf := fun _ => None;
     os_OpenThreadToken := fun h _ _ _ => fails FailOpenThreadToken (fresh_handle h);
     os_TokenClose := fun _ _ => None;
     os_LookupPrivilegeValue :=
       fun _ _ _ => fails FailLookupPrivilegeValue {| LowPart := 20; HighPart := 0 |};
     os_AdjustTokenPrivileges := fun _ _ _ _ => refuses FailAdjustTokenPrivileges;
     os_OpenProcess := fun h _ _ _ => fails FailOpenProcess (fresh_handle h);
     os_CloseHandle := fun _ _ => None;
     os_OpenProcessToken := fun h _ _ => fails FailOpenProcessToken (fresh_handle h);
     os_TokenEnviron := fun _ _ _ => fails FailEnviron ["A=1"; "B=2"]%string;
     os_CommandPath := resolve_in_system32;
     os_CmdStart := fun _ _ => refuses FailStart;
     os_RegOpenKey :=
       fun _ _ path _ =>
         if String.eqb path regPolicyBase then Ok policy_key
         else if String.eqb path regBase then Ok legacy_key
         else Err ERROR_NOT_FOUND;
     os_RegGetStringValue :=
       fun _ k _ => or_not_found (if k =? policy_key then policyS else legacyS);
     os_RegGetIntegerValue :=
       fun _ k _ => or_not_found (if k =? policy_key then policyI else legacyI);
     os_RegKeyClose := fun _ _ => None;
     os_StringToSid := fun _ _ => fails FailStringToSid 1;
     os_LookupAccount :=
       fun _ _ _ => fails FailLookupAccount ("user", "HOST", accType)%string |}.

Definition machine (f : fault) : Platform :=
  sample f None None None None SidTypeUser.

Definition session0 : SecState :=
  {| self := 700; ambient := []; impersonation := None; handles := [] |}.

Definition registry_legacy : Platform :=
  sample NoFault None (Some "legacy"%string) None (Some 2) SidTypeUser.
Definition registry_empty : Platform := machine NoFault.

(** The faults that hit a step of the spawn sequence, in the order of the
    steps. *)
Definition spawn_faults : list fault :=
  [FailImpersonateSelf; FailOpenThreadToken; FailLookupPrivilegeValue;
   FailAdjustTokenPrivileges; FailOpenProcess; FailOpenProcessToken;
   FailEnviron; FailStart].

Definition spawn_on (f : fault) : option error * list event :=
  StartProcessAsChild 4242 "C:\tailscale-ipn.exe" ["C=3"%string] (machine f) [].

(* ===================================================================== *)
(** ** More exit paths: the locator and the entry point *)
(* ===================================================================== *)

(** The exit paths of [GetDesktopPID]. *)
Inductive GDP_path : Z * option error -> list event -> Prop :=
| GDP_no_shell :
    GDP_path (0, Some ErrNoShell) [EvGetShellWindow 0]
| GDP_no_process hwnd :
    hwnd <> 0 ->
    GDP_path (0, Some (invalid_pid_error hwnd))
      [EvGetShellWindow hwnd; EvGetWindowThreadProcessId hwnd 0]
| GDP_found hwnd pid :
    hwnd <> 0 -> 0 < pid < 2 ^ 32 ->
    GDP_path (pid, None)
      [EvGetShellWindow hwnd; EvGetWindowThreadProcessId hwnd pid].

(** The exit paths of [StartProcessAsCurrentGUIUser]. *)
Inductive SPGU_path (exePath : string) (extraEnv : list string)
  : option error -> list event -> Prop :=
| SPGU_no_desktop pid e el :
    GDP_path (pid, Some e) el ->
    SPGU_path exePath extraEnv (Some (find_desktop_error e)) el
| SPGU_not_started pid el e es :
    GDP_path (pid, None) el ->
    SPAC_path pid exePath extraEnv (Some e) es ->
    SPGU_path exePath extraEnv (Some (start_executable_error e)) (el ++ es)
| SPGU_started pid el es :
    GDP_path (pid, None) el ->
    SPAC_path pid exePath extraEnv None es ->
    SPGU_path exePath extraEnv None (el ++ es).

(* ===================================================================== *)
(** ** More readings of a log *)
(* ===================================================================== *)

(** *** Registry keys *)

(** Replays the registry calls of a log over the key that is open, if any: a
    key is opened only when none is open, a value is read from the open key
    and from no other, and a close closes the open key.  [None] when a call
    breaks one of these. *)
Fixpoint one_key_at_a_time (cur : option Key) (evs : list event)
  : option (option Key) :=
  match evs with
  | [] => Some cur
  | ev :: evs' =>
      match ev with
      | EvRegOpenKey _ _ _ (Ok k) =>
          match cur with
          | None => one_key_at_a_time (Some k) evs'
          | Some _ => None
          end
      | EvRegGetStringValue k _ _ | EvRegGetIntegerValue k _ _ =>
          match cur with
          | Some k' => if k' =? k then one_key_at_a_time cur evs' else None
          | None => None
          end
      | EvRegKeyClose k _ =>
          match cur with
          | Some k' => if k' =? k then one_key_at_a_time None evs' else None
          | None => None
          end
      | _ => one_key_at_a_time cur evs'
      end
  end.

(** The lines a log sends to [log.Printf]. *)
Fixpoint log_lines (evs : list event) : list string :=
  match evs with
  | [] => []
  | EvLogPrintf line :: evs' => line :: log_lines evs'
  | _ :: evs' => log_lines evs'
  end.

Definition OpenKey_line (subKey : string) (err : error) : string :=
  "registry.OpenKey(" ++ subKey ++ "): " ++ Error err.
Definition GetStringValue_line (name : string) (err : error) : string :=
  "registry.GetStringValue(" ++ name ++ "): " ++ Error err.
Definition GetIntegerValue_line (name : string) (err : error) : string :=
  "registry.GetIntegerValue(" ++ name ++ "): " ++ Error err.

(** A registry call that only reads, under [HKEY_LOCAL_MACHINE], one of the
    two keys of the package (or a log line). *)
Definition is_registry_read (ev : event) : bool :=
  match ev with
  | EvRegOpenKey k path access _ =>
      (k =? LOCAL_MACHINE) && (access =? READ)
      && (String.eqb path regPolicyBase || String.eqb path regBase)
  | EvRegGetStringValue _ _ _ | EvRegGetIntegerValue _ _ _
  | EvRegKeyClose _ _ | EvLogPrintf _ => true
  | _ => false
  end.

(** *** Calls of one kind *)

Definition is_LookupPrivilegeValue (ev : event) : bool :=
  match ev with EvLookupPrivilegeValue _ _ _ => true | _ => false end.
Definition is_TokenClose (ev : event) : bool :=
  match ev with EvTokenClose _ _ => true | _ => false end.
Definition is_ImpersonateSelf_ok (ev : event) : bool :=
  match ev with EvImpersonateSelf _ None => true | _ => false end.
Definition is_UnlockOSThread (ev : event) : bool :=
  match ev with EvUnlockOSThread => true | _ => false end.
Definition is_CmdStart (ev : event) : bool :=
  match ev with EvCmdStart _ _ => true | _ => false end.
Definition is_GetWindowThreadProcessId (ev : event) : bool :=
  match ev with EvGetWindowThreadProcessId _ _ => true | _ => false end.

Definition count (f : event -> bool) (evs : list event) : nat :=
  List.length (filter f evs).

(** The first word of each of the two messages of the entry point. *)
Definition find_desktop_prefix : string := "failed to find desktop: ".
Definition start_executable_prefix : string := "failed to start executable: ".

(* ===================================================================== *)
(** ** wgcfg: the WireGuard configuration *)
(* ===================================================================== *)

Module wgcfg.

(** [key.NodePublic], [key.DiscoPublic] and [key.NodePrivate] wrap an array
    of 32 bytes, compared with [==]. *)
Definition key32 := list Byte.byte.
Definition key32_eq_dec : forall a b : key32, {a = b} + {a <> b} :=
  list_eq_dec Byte.byte_eq_dec.
Definition zero_key : key32 := repeat Byte.x00 32.

Section Config.
(** [netaddr.IPPrefix] and [netaddr.IP] are kept abstract. *)
Variables IPPrefix IP : Type.

Record Peer := {
  PublicKey : key32;
  DiscoKey : key32;
  AllowedIPs : list IPPrefix;
  PersistentKeepalive : Z;
  WGEndpoint : key32
}.

Record Config := {
  Name : string;
  PrivateKey : key32;
  Addresses : list IPPrefix;
  MTU : Z;
  DNS : list IP;
  Peers : list Peer
}.

(** [Peer{}] *)
Definition zero_Peer : Peer :=
  {| PublicKey := zero_key; DiscoKey := zero_key; AllowedIPs := [];
     PersistentKeepalive := 0; WGEndpoint := zero_key |}.

(** [for _, p := range config.Peers { if p.PublicKey == k { return p, true } }] *)
Fixpoint range_Peers (peers : list Peer) (k : key32) : Peer * bool :=
  match peers with
  | [] => (zero_Peer, false)
  | p :: rest =>
      if key32_eq_dec (PublicKey p) k then (p, true)
      else range_Peers rest k
  end.

(** func (config Config) PeerWithKey(k key.NodePublic) (Peer, bool) *)
Definition PeerWithKey (config : Config) (k : key32) : Peer * bool :=
  range_Peers (Peers config) k.
End Config.

Arguments PublicKey {IPPrefix} _.
Arguments DiscoKey {IPPrefix} _.
Arguments AllowedIPs {IPPrefix} _.
Arguments Peers {IPPrefix IP} _.
Arguments zero_Peer {IPPrefix}.
Arguments range_Peers {IPPrefix} _ _.
Arguments PeerWithKey {IPPrefix IP} _ _.

(** A sample configuration with two peers (prefixes and addresses as
    numbers). *)
Definition key_of (b : Byte.byte) : key32 := repeat b 32.
Definition peer_of (b : Byte.byte) (keepalive : Z) : Peer Z :=
  {| PublicKey := key_of b; DiscoKey := zero_key; AllowedIPs := [];
     PersistentKeepalive := keepalive; WGEndpoint := key_of b |}.
Definition two_peers : Config Z Z :=
  {| Name := "tailscale"; PrivateKey := zero_key; Addresses := []; MTU := 1280;
     DNS := []; Peers := [peer_of Byte.x01 25; peer_of Byte.x02 0] |}.

End wgcfg.
(* ===================================================================== *)
(** ** Running the package symbolically *)
(* ===================================================================== *)

(** Case analysis on the next platform answer a computation waits for. *)
Ltac next_answer :=
  match goal with
  | |- context [match ?x with _ => _ end] =>
      lazymatch x with
      | context [match _ with _ => _ end] => fail
      | _ => destruct x eqn:?
      end
  end.

Ltac unfold_go :=
  unfold result_of, calls_of, func, gbind, call, defer, orReturn, checkErr,
    Return, gret, bind, ret, prim, emit.

Ltac unfold_prims :=
  unfold GetShellWindow, GetWindowThreadProcessId, LockOSThread, UnlockOSThread,
    ImpersonateSelf, RevertToSelf, OpenThreadToken, Token_Close,
    LookupPrivilegeValue, AdjustTokenPrivileges, OpenProcess, CloseHandle,
    OpenProcessToken, Token_Environ, Cmd_Start, exec_Command, registry_OpenKey,
    Key_GetStringValue, Key_GetIntegerValue, Key_Close, log_Printf, StringToSid,
    SID_LookupAccount, UTF16PtrFromString.

Ltac run_go := unfold_prims; unfold_go; cbn; repeat (next_answer; cbn).

Lemma ECTP_runs name P h :
  ECTP_path name (result_of (EnableCurrentThreadPrivilege name) P h)
                 (calls_of (EnableCurrentThreadPrivilege name) P h).
Proof.
  unfold EnableCurrentThreadPrivilege. run_go;
    econstructor; eassumption.
Qed.

Lemma SPAC_runs parentPID exePath extraEnv P h :
  SPAC_path parentPID exePath extraEnv
    (result_of (StartProcessAsChild parentPID exePath extraEnv) P h)
    (calls_of (StartProcessAsChild parentPID exePath extraEnv) P h).
Proof.
  unfold StartProcessAsChild. unfold_prims. unfold_go. cbn.
  destruct (os_ImpersonateSelf P _ _) eqn:Himp; cbn.
  - constructor.
  - match goal with
    | |- context [EnableCurrentThreadPrivilege ?n ?P ?h] =>
        pose proof (ECTP_runs n P h) as Hel;
        unfold result_of, calls_of in Hel;
        destruct (EnableCurrentThreadPrivilege n P h) as [r el]
    end.
    cbn in *.
    repeat (next_answer; cbn); rewrite <- ?app_assoc; cbn.
    all: try (econstructor; eassumption).
Qed.

(* ===================================================================== *)
(** ** Runs on the sample machine *)
(* ===================================================================== *)

Example spawn_run_without_fault :
  spawn_on NoFault =
    (None,
     [EvLockOSThread;
      EvImpersonateSelf SecurityImpersonation None;
      EvOpenThreadToken CurrentThread thread_token_access false (Ok 264);
      EvLookupPrivilegeValue None SeDebugPrivilege
        (Ok {| LowPart := 20; HighPart := 0 |});
      EvAdjustTokenPrivileges 264 false
        (tp_enable {| LowPart := 20; HighPart := 0 |}) None;
      EvTokenClose 264 None;
      EvOpenProcess spawn_access false 4242 (Ok 280);
      EvOpenProcessToken 280 TOKEN_QUERY (Ok 284);
      EvTokenEnviron 284 false (Ok ["A=1"; "B=2"]%string);
      EvCmdStart
        (spawn_cmd "C:\tailscale-ipn.exe" "C:\tailscale-ipn.exe"
           ["A=1"; "B=2"; "C=3"]%string 280) None;
      EvTokenClose 284 None;
      EvCloseHandle 280 None;
      EvRevertToSelf None;
      EvUnlockOSThread]).
Proof. reflexivity. Qed.

Example spawn_run_elevation_refused :
  spawn_on FailAdjustTokenPrivileges =
    (Some ERROR_ACCESS_DENIED,
     [EvLockOSThread;
      EvImpersonateSelf SecurityImpersonation None;
      EvOpenThreadToken CurrentThread thread_token_access false (Ok 264);
      EvLookupPrivilegeValue None SeDebugPrivilege
        (Ok {| LowPart := 20; HighPart := 0 |});
      EvAdjustTokenPrivileges 264 false
        (tp_enable {| LowPart := 20; HighPart := 0 |})
        (Some ERROR_ACCESS_DENIED);
      EvTokenClose 264 None;
      EvRevertToSelf None;
      EvUnlockOSThread]).
Proof. reflexivity. Qed.

(** A fault at each step in turn: the steps gone through, the handles left
    open, and the lock count at the end. *)
Example spawn_runs_under_each_fault :
  map (fun f => steps_run (snd (spawn_on f))) spawn_faults =
    [[1]; [1; 2]; [1; 2]; [1; 2]; [1; 2; 3]; [1; 2; 3; 4]; [1; 2; 3; 4; 5];
     [1; 2; 3; 4; 5; 8]]%nat /\
  map (fun f => live_handles [] (snd (spawn_on f))) spawn_faults =
    repeat (Some []) 8 /\
  map (fun f => fst (spawn_on f)) spawn_faults =
    repeat (Some ERROR_ACCESS_DENIED) 8 /\
  map (fun f => ambient (replay session0 (snd (spawn_on f)))) spawn_faults =
    repeat [] 8.
Proof. repeat split. Qed.

Example entry_point_run_without_shell :
  StartProcessAsCurrentGUIUser "C:\tailscale-ipn.exe" [] (machine NoShellWindow) []
  = (Some (ErrorString "failed to find desktop: no Shell process is present"),
     [EvGetShellWindow 0]).
Proof. reflexivity. Qed.

Example elevation_of_a_name_with_NUL :
  EnableCurrentThreadPrivilege (String Ascii.zero "SeDebugPrivilege")
    (machine NoFault) []
  = (Some EINVAL,
     [EvOpenThreadToken CurrentThread thread_token_access false (Ok 256);
      EvTokenClose 256 None]).
Proof. reflexivity. Qed.

(** Without the thread lock the same calls may be spread over threads; with
    it they are not. *)
Example unpinned_calls_may_migrate :
  map snd (runs_on restless 0 0 []
             [EvImpersonateSelf SecurityImpersonation None; EvRevertToSelf None])
    = [0; 1] /\
  map snd (runs_on restless 0 0 [] (snd (spawn_on NoFault))) = repeat 0 14.
Proof. split; reflexivity. Qed.

(** A bare program name: the command started carries the path the name was
    resolved to, and the name as its only argument. *)
Example spawn_run_of_a_bare_name :
  In (EvCmdStart
        (spawn_cmd "C:\Windows\System32\notepad.exe" "notepad.exe"
           ["A=1"; "B=2"]%string 280) None)
     (snd (StartProcessAsChild 4242 "notepad.exe" [] (machine NoFault) [])).
Proof. vm_compute. tauto. Qed.

(* ===================================================================== *)
(** ** What the readings of a log mean *)
(* ===================================================================== *)

(** What [first_failure] and [aborts_at_first_failure] say, without replay. *)
Lemma first_failure_split evs e :
  first_failure evs = Some e ->
  exists pre ev post,
    evs = pre ++ ev :: post /\
    Forall (fun x => failure_of x = None) pre /\
    failure_of ev = Some e.
Proof.
  induction evs as [ | x evs IH]; cbn; intros Hf.
  - discriminate.
  - destruct (failure_of x) as [e' | ] eqn:Hx.
    + injection Hf as <-. exists [], x, evs. repeat split; trivial.
    + destruct (IH Hf) as (pre & ev & post & -> & Hpre & Hev).
      exists (x :: pre), ev, post. repeat split; trivial.
      constructor; assumption.
Qed.

Lemma aborts_at_first_failure_split evs :
  aborts_at_first_failure evs = true ->
  forall pre ev post e,
    evs = pre ++ ev :: post ->
    Forall (fun x => failure_of x = None) pre ->
    failure_of ev = Some e ->
    Forall (fun x => is_release x = true) post.
Proof.
  induction evs as [ | x evs IH]; cbn; intros Ha pre ev post e Hsplit Hpre Hev.
  - destruct pre; discriminate.
  - destruct pre as [ | y pre]; cbn in Hsplit; injection Hsplit as -> ->.
    + rewrite Hev in Ha. apply Forall_forall. intros z Hz.
      apply (proj1 (forallb_forall _ _) Ha z Hz).
    + inversion Hpre as [ | ? ? Hy Hpre']; subst. rewrite Hy in Ha.
      apply (IH Ha pre ev post e eq_refl Hpre' Hev).
Qed.

Lemma first_failure_app pre ev post e :
  Forall (fun x => failure_of x = None) pre ->
  failure_of ev = Some e ->
  first_failure (pre ++ ev :: post) = Some e.
Proof.
  induction 1 as [ | x pre Hx _ IH]; cbn; intros Hev.
  - rewrite Hev. reflexivity.
  - rewrite Hx. apply IH, Hev.
Qed.

(** What [elevation_inside_scope] says: before a call of the elevation there
    is a successful [ImpersonateSelf] with no [RevertToSelf] since. *)
Lemma elevation_inside_scope_split evs : forall open,
  elevation_inside_scope open evs = true ->
  forall pre ev post,
    evs = pre ++ ev :: post ->
    is_elevation ev = true ->
    (open = true /\ existsb is_RevertToSelf pre = false) \/
    (exists p1 level p2,
       pre = p1 ++ EvImpersonateSelf level None :: p2 /\
       existsb is_RevertToSelf p2 = false).
Proof.
  induction evs as [ | x evs IH]; intros open Hin pre ev post Hsplit Hev.
  - destruct pre; discriminate.
  - destruct pre as [ | y pre]; cbn in Hsplit; injection Hsplit as -> ->.
    + left. split; [ | reflexivity].
      destruct ev; try discriminate Hev; cbn in Hin;
        apply andb_true_iff in Hin as [Hopen _]; exact Hopen.
    + assert (Hstep :
        exists open',
          elevation_inside_scope open' (pre ++ ev :: post) = true /\
          ((exists level, y = EvImpersonateSelf level None) \/
           (is_RevertToSelf y = true /\ open' = false) \/
           (is_RevertToSelf y = false /\ open' = open))).
      { destruct y; cbn in Hin;
          try (apply andb_true_iff in Hin as [_ Hin]);
          try (exists open; split; [exact Hin | right; right; split; reflexivity]).
        - destruct err.
          + exists open. split; [exact Hin | right; right; split; reflexivity].
          + exists true. split; [exact Hin | left; eexists; reflexivity].
        - exists false. split; [exact Hin | right; left; split; reflexivity]. }
      destruct Hstep as (open' & Hin' & Hy).
      destruct (IH open' Hin' pre ev post eq_refl Hev)
        as [[Ho Hpre] | (p1 & level & p2 & -> & Hp2)].
      * destruct Hy as [[level ->] | [[Hy ->] | [Hy ->]]].
        -- right. exists [], level, pre. split; [reflexivity | exact Hpre].
        -- discriminate Ho.
        -- left. split; [exact Ho | ]. cbn. rewrite Hy. exact Hpre.
      * right. exists (y :: p1), level, p2. split; [reflexivity | exact Hp2].
Qed.

Lemma elevation_reverted_split evs :
  elevation_reverted evs = true ->
  forall pre ev post,
    evs = pre ++ ev :: post ->
    is_elevation ev = true ->
    existsb is_RevertToSelf post = true.
Proof.
  induction evs as [ | x evs IH]; cbn; intros Hr pre ev post Hsplit Hev.
  - destruct pre; discriminate.
  - apply andb_true_iff in Hr as [Hx Hr].
    destruct pre as [ | y pre]; cbn in Hsplit; injection Hsplit as -> ->.
    + rewrite Hev in Hx. exact Hx.
    + apply (IH Hr pre ev post eq_refl Hev).
Qed.

(** What [pinned_throughout] says: where a call is made, the lock count is
    positive. *)
Lemma pinned_throughout_split evs : forall depth,
  pinned_throughout depth evs = true ->
  forall pre ev post,
    evs = pre ++ ev :: post ->
    ev <> EvLockOSThread -> ev <> EvUnlockOSThread ->
    (0 < lock_depth depth pre)%nat.
Proof.
  induction evs as [ | x evs IH]; intros depth Hp pre ev post Hsplit Hl Hu.
  - destruct pre; discriminate.
  - destruct pre as [ | y pre]; cbn in Hsplit; injection Hsplit as -> ->.
    + cbn. destruct ev; try congruence; cbn in Hp;
        apply andb_true_iff in Hp as [Hd _]; apply Nat.ltb_lt; exact Hd.
    + destruct y; cbn in Hp |- *;
        try (apply andb_true_iff in Hp as [_ Hp]);
        apply (IH _ Hp pre ev post eq_refl Hl Hu).
Qed.

(* ===================================================================== *)
(** ** The desktop session locator *)
(* ===================================================================== *)

(** C5.  [GetDesktopPID]: when there is no shell window (the handle is zero)
    it fails with [ErrNoShell] and asks nothing else; when the window exists
    and its owning process id is zero it fails with an error whose text holds
    the window handle; otherwise it returns that nonzero process id and no
    error. *)
Theorem C5_GetDesktopPID_cases (P : Platform) (h : history) :
  let hwnd := uintptr (os_GetShellWindow P h) in
  let pid :=
    uint32 (os_GetWindowThreadProcessId P (h ++ [EvGetShellWindow hwnd]) hwnd) in
  (hwnd = 0 ->
   GetDesktopPID P h = ((0, Some ErrNoShell), [EvGetShellWindow 0])) /\
  (hwnd <> 0 -> pid = 0 ->
   GetDesktopPID P h =
     ((0, Some (invalid_pid_error hwnd)),
      [EvGetShellWindow hwnd; EvGetWindowThreadProcessId hwnd 0])) /\
  (hwnd <> 0 -> pid <> 0 ->
   GetDesktopPID P h =
     ((pid, None),
      [EvGetShellWindow hwnd; EvGetWindowThreadProcessId hwnd pid])).
Proof.
  intros hwnd pid. subst pid.
  unfold GetDesktopPID. unfold_prims. unfold_go. cbn. fold hwnd.
  destruct (Z.eqb_spec hwnd 0) as [Hw | Hw]; cbn.
  - repeat split; intros; try contradiction. rewrite Hw. reflexivity.
  - rewrite app_nil_r.
    destruct (Z.eqb_spec
                (uint32 (os_GetWindowThreadProcessId P
                           (h ++ [EvGetShellWindow hwnd]) hwnd)) 0)
      as [Hp | Hp]; cbn;
      repeat split; intros; try contradiction.
    rewrite Hp. reflexivity.
Qed.

Lemma C5_GetDesktopPID_cases_witness :
  GetDesktopPID (machine NoShellWindow) [] =
    ((0, Some ErrNoShell), [EvGetShellWindow 0]) /\
  GetDesktopPID (machine NoWindowProcess) [] =
    ((0, Some (ErrorString "invalid PID for HWND 65552")),
     [EvGetShellWindow 65552; EvGetWindowThreadProcessId 65552 0]) /\
  GetDesktopPID (machine NoFault) [] =
    ((4242, None),
     [EvGetShellWindow 65552; EvGetWindowThreadProcessId 65552 4242]).
Proof.
  split; [|split].
  - apply (proj1 (C5_GetDesktopPID_cases (machine NoShellWindow) [])).
    reflexivity.
  - apply (proj1 (proj2 (C5_GetDesktopPID_cases (machine NoWindowProcess) [])));
      [discriminate | reflexivity].
  - apply (proj2 (proj2 (C5_GetDesktopPID_cases (machine NoFault) [])));
      discriminate.
Defined.

(* ===================================================================== *)
(** ** The public entry point *)
(* ===================================================================== *)

Lemma GetDesktopPID_calls P h :
  forallb is_locator_call (snd (GetDesktopPID P h)) = true.
Proof.
  unfold GetDesktopPID. run_go; reflexivity.
Qed.

(** C6.  [StartProcessAsCurrentGUIUser]: when the locator fails, the result is
    the locator's error behind the prefix "failed to find desktop: " and the
    only calls made are the locator's, so the spawner is not entered and no
    process is opened; when the locator succeeds, the spawner runs next with
    the process id the locator resolved, its failure comes back behind the
    prefix "failed to start executable: ", and its success is success. *)
Theorem C6_entry_point_wraps_errors (exePath : string) (extraEnv : list string)
  (P : Platform) (h : history) :
  let loc := GetDesktopPID P h in
  let desktop := fst (fst loc) in
  let sp := StartProcessAsChild desktop exePath extraEnv P (h ++ snd loc) in
  (forall err, snd (fst loc) = Some err ->
     StartProcessAsCurrentGUIUser exePath extraEnv P h =
       (Some (find_desktop_error err), snd loc) /\
     forallb is_locator_call (snd loc) = true /\
     existsb is_OpenProcess (snd loc) = false) /\
  (snd (fst loc) = None ->
     calls_of (StartProcessAsCurrentGUIUser exePath extraEnv) P h =
       snd loc ++ snd sp /\
     (forall err, fst sp = Some err ->
        result_of (StartProcessAsCurrentGUIUser exePath extraEnv) P h =
          Some (start_executable_error err)) /\
     (fst sp = None ->
        result_of (StartProcessAsCurrentGUIUser exePath extraEnv) P h = None)).
Proof.
  intros loc desktop sp. subst sp desktop.
  pose proof (GetDesktopPID_calls P h) as Hloc. fold loc in Hloc.
  unfold StartProcessAsCurrentGUIUser. unfold_go. cbn. fold loc.
  destruct loc as [[pid err] e1]. cbn in *.
  destruct err as [err | ]; cbn; split.
  - intros err' Heq. injection Heq as Heq. subst err'.
    rewrite !app_nil_r. repeat split; trivial.
    clear - Hloc. induction e1 as [ | ev e1 IH]; [reflexivity | ].
    cbn in *. apply andb_true_iff in Hloc as [Hev He1].
    rewrite (IH He1). destruct ev; try discriminate; reflexivity.
  - discriminate.
  - discriminate.
  - intros _. rewrite !app_nil_r.
    destruct (StartProcessAsChild pid exePath extraEnv P (h ++ e1))
      as [[err | ] e2]; cbn; rewrite ?app_nil_r;
      repeat split; intros; try congruence.
    match goal with
    | H : Some _ = Some _ |- _ => injection H as H; subst; reflexivity
    end.
Qed.

Lemma C6_entry_point_wraps_errors_witness :
  StartProcessAsCurrentGUIUser "C:\tailscale-ipn.exe" [] (machine NoShellWindow) [] =
    (Some (ErrorString "failed to find desktop: no Shell process is present"),
     [EvGetShellWindow 0]) /\
  result_of (StartProcessAsCurrentGUIUser "C:\tailscale-ipn.exe" [])
    (machine FailOpenProcess) [] =
    Some (ErrorString "failed to start executable: Access is denied.") /\
  result_of (StartProcessAsCurrentGUIUser "C:\tailscale-ipn.exe" [])
    (machine NoFault) [] = None.
Proof.
  split; [ | split].
  - apply (proj1 (C6_entry_point_wraps_errors "C:\tailscale-ipn.exe" []
                    (machine NoShellWindow) []) ErrNoShell).
    reflexivity.
  - apply (proj1 (proj2 (proj2 (C6_entry_point_wraps_errors
                    "C:\tailscale-ipn.exe" [] (machine FailOpenProcess) [])
                    eq_refl)) ERROR_ACCESS_DENIED).
    vm_compute. reflexivity.
  - apply (proj2 (proj2 (proj2 (C6_entry_point_wraps_errors
                    "C:\tailscale-ipn.exe" [] (machine NoFault) [])
                    eq_refl))).
    vm_compute. reflexivity.
Defined.

(* ===================================================================== *)
(** ** The tiered configuration lookup *)
(* ===================================================================== *)






(* ===================================================================== *)
(** ** The security-identifier check *)
(* ===================================================================== *)

Lemma principal_types_spec ty :
  (ty =? SidTypeUser) || (ty =? SidTypeGroup) || (ty =? SidTypeDomain)
  || (ty =? SidTypeAlias) || (ty =? SidTypeWellKnownGroup)
  || (ty =? SidTypeComputer) = true <-> In ty principal_types.
Proof.
  unfold principal_types. cbn [In].
  rewrite !orb_true_iff, !Z.eqb_eq. intuition congruence.
Qed.

(** C10.  [isSIDValidPrincipal] returns a plain boolean for every string.  It
    is [true] exactly when the string parses as a SID, the account lookup of
    that SID (on the local system) succeeds, and the account type is user,
    group, domain, alias, well-known group or computer.  A string that does
    not parse, a lookup that fails, and the types deleted account, invalid,
    unknown and label give [false]. *)
Theorem C10_isSIDValidPrincipal_iff (uid : string) (P : Platform) (h : history) :
  (result_of (isSIDValidPrincipal uid) P h = true <->
   exists sid acct dom ty,
     os_StringToSid P h uid = Ok sid /\
     os_LookupAccount P (h ++ [EvStringToSid uid (Ok sid)]) sid EmptyString
       = Ok (acct, dom, ty) /\
     In ty principal_types) /\
  (forall e, os_StringToSid P h uid = Err e ->
     result_of (isSIDValidPrincipal uid) P h = false) /\
  (forall sid e,
     os_StringToSid P h uid = Ok sid ->
     os_LookupAccount P (h ++ [EvStringToSid uid (Ok sid)]) sid EmptyString
       = Err e ->
     result_of (isSIDValidPrincipal uid) P h = false) /\
  (forall sid acct dom ty,
     os_StringToSid P h uid = Ok sid ->
     os_LookupAccount P (h ++ [EvStringToSid uid (Ok sid)]) sid EmptyString
       = Ok (acct, dom, ty) ->
     In ty rejected_types ->
     result_of (isSIDValidPrincipal uid) P h = false).
Proof.
  assert (Hiff :
    result_of (isSIDValidPrincipal uid) P h = true <->
    exists sid acct dom ty,
      os_StringToSid P h uid = Ok sid /\
      os_LookupAccount P (h ++ [EvStringToSid uid (Ok sid)]) sid EmptyString
        = Ok (acct, dom, ty) /\
      In ty principal_types).
  { unfold isSIDValidPrincipal. unfold_prims. unfold_go. cbn.
    destruct (os_StringToSid P h uid) as [sid | e] eqn:Hsid; cbn.
    - rewrite !app_nil_r.
      destruct (os_LookupAccount P (h ++ [EvStringToSid uid (Ok sid)]) sid
                  EmptyString) as [[[acct dom] ty] | e] eqn:Hacc; cbn.
      + pose proof (principal_types_spec ty) as Hty.
        destruct ((ty =? SidTypeUser) || (ty =? SidTypeGroup)
                  || (ty =? SidTypeDomain) || (ty =? SidTypeAlias)
                  || (ty =? SidTypeWellKnownGroup) || (ty =? SidTypeComputer));
          cbn; split.
        * intros _. exists sid, acct, dom, ty. intuition.
        * reflexivity.
        * discriminate.
        * intros (sid' & a & d & ty' & Hs & Ha & Hin).
          injection Hs as <-. rewrite Hacc in Ha. injection Ha as <- <- <-.
          apply Hty in Hin. discriminate.
      + split; [discriminate | ].
        intros (sid' & a & d & ty' & Hs & Ha & _).
        injection Hs as <-. rewrite Hacc in Ha. discriminate.
    - split; [discriminate | ].
      intros (sid' & a & d & ty' & Hs & _). discriminate. }
  split; [exact Hiff | ].
  repeat split.
  - intros e He. apply not_true_is_false. intros Ht.
    apply Hiff in Ht as (sid & _ & _ & _ & Hs & _). congruence.
  - intros sid e Hs He. apply not_true_is_false. intros Ht.
    apply Hiff in Ht as (sid' & a & d & ty & Hs' & Ha & _).
    rewrite Hs in Hs'. injection Hs' as <-. congruence.
  - intros sid acct dom ty Hs Ha Hin. apply not_true_is_false. intros Ht.
    apply Hiff in Ht as (sid' & a & d & ty' & Hs' & Ha' & Hin').
    rewrite Hs in Hs'. injection Hs' as <-.
    rewrite Ha in Ha'. injection Ha' as <- <- <-.
    unfold rejected_types, principal_types in *. cbn [In] in *.
    unfold SidTypeUser, SidTypeGroup, SidTypeDomain, SidTypeAlias,
      SidTypeWellKnownGroup, SidTypeComputer, SidTypeDeletedAccount,
      SidTypeInvalid, SidTypeUnknown, SidTypeLabel in *.
    lia.
Qed.

Lemma C10_isSIDValidPrincipal_iff_witness :
  result_of (isSIDValidPrincipal "S-1-5-18")
    (sample NoFault None None None None SidTypeWellKnownGroup) [] = true /\
  result_of (isSIDValidPrincipal "not a SID") (machine FailStringToSid) []
    = false /\
  result_of (isSIDValidPrincipal "S-1-5-21-1-2-3-1001")
    (machine FailLookupAccount) [] = false /\
  result_of (isSIDValidPrincipal "S-1-16-12288")
    (sample NoFault None None None None SidTypeLabel) [] = false.
Proof.
  split; [ | split; [ | split]].
  - apply (proj1 (C10_isSIDValidPrincipal_iff "S-1-5-18"
             (sample NoFault None None None None SidTypeWellKnownGroup) [])).
    exists 1, "user"%string, "HOST"%string, SidTypeWellKnownGroup.
    repeat split; try reflexivity. cbn. tauto.
  - apply (proj1 (proj2 (C10_isSIDValidPrincipal_iff "not a SID"
             (machine FailStringToSid) [])) ERROR_ACCESS_DENIED).
    reflexivity.
  - apply (proj1 (proj2 (proj2 (C10_isSIDValidPrincipal_iff
             "S-1-5-21-1-2-3-1001" (machine FailLookupAccount) [])))
             1 ERROR_ACCESS_DENIED); reflexivity.
  - apply (proj2 (proj2 (proj2 (C10_isSIDValidPrincipal_iff "S-1-16-12288"
             (sample NoFault None None None None SidTypeLabel) [])))
             1 "user"%string "HOST"%string SidTypeLabel);
      try reflexivity.
    cbn. tauto.
Defined.

(* ===================================================================== *)
(** ** The privilege elevator *)
(* ===================================================================== *)

(** C7, as the code has it.  [EnableCurrentThreadPrivilege] first opens the
    token of the current thread and converts the name; when the token does
    not open the call ends with that error, and when the name holds a NUL it
    ends with [EINVAL], in both cases before anything is looked up.  For
    every other name, once the token [t] is held: it looks up the identifier
    of that very name; when the lookup fails with [e] the call ends with [e]
    and nothing is applied; otherwise it applies to [t] a privilege set of
    exactly one entry (privilege count one), that identifier with the enabled
    attribute, and the outcome of the apply, error or not, is the outcome of
    the call.  The token is closed on each of these paths. *)
Theorem C7_lookup_then_enable_one_entry (name : string) (P : Platform)
  (h : history) :
  let opened := os_OpenThreadToken P h CurrentThread thread_token_access false in
  (forall e, opened = Err e ->
     EnableCurrentThreadPrivilege name P h =
       (Some e,
        [EvOpenThreadToken CurrentThread thread_token_access false (Err e)])) /\
  (forall t, opened = Ok t ->
     let open_ev :=
       EvOpenThreadToken CurrentThread thread_token_access false (Ok t) in
     let looked := os_LookupPrivilegeValue P (h ++ [open_ev]) None name in
     (has_NUL name = true ->
        exists c,
          EnableCurrentThreadPrivilege name P h =
            (Some EINVAL, [open_ev; EvTokenClose t c])) /\
     (has_NUL name = false ->
        (forall e, looked = Err e ->
           exists c,
             EnableCurrentThreadPrivilege name P h =
               (Some e,
                [open_ev; EvLookupPrivilegeValue None name (Err e);
                 EvTokenClose t c])) /\
        (forall luid, looked = Ok luid ->
           let tp :=
             {| PrivilegeCount := 1;
                Privileges_0 :=
                  {| Luid := luid; Attributes := SE_PRIVILEGE_ENABLED |} |} in
           let lookup_ev := EvLookupPrivilegeValue None name (Ok luid) in
           let applied :=
             os_AdjustTokenPrivileges P (h ++ [open_ev; lookup_ev]) t false tp in
           exists c,
             EnableCurrentThreadPrivilege name P h =
               (applied,
                [open_ev; lookup_ev;
                 EvAdjustTokenPrivileges t false tp applied;
                 EvTokenClose t c])))).
Proof.
  intros opened. subst opened.
  unfold EnableCurrentThreadPrivilege. unfold_prims. unfold_go. cbn.
  change (Z.lor TOKEN_QUERY TOKEN_ADJUST_PRIVILEGES) with thread_token_access.
  split.
  - intros e He. rewrite He. reflexivity.
  - intros t Ht. rewrite Ht. cbn. rewrite !app_nil_r. split.
    + intros Hnul. rewrite Hnul. cbn. eexists. reflexivity.
    + intros Hnul. rewrite Hnul. cbn. rewrite !app_nil_r. split.
      * intros e He. rewrite He. cbn. eexists. reflexivity.
      * intros luid Hl. rewrite Hl. cbn. rewrite <- !app_assoc. cbn.
        eexists. reflexivity.
Qed.

Lemma C7_lookup_then_enable_one_entry_witness :
  (EnableCurrentThreadPrivilege SeDebugPrivilege (machine FailOpenThreadToken) []
   = (Some ERROR_ACCESS_DENIED,
      [EvOpenThreadToken CurrentThread thread_token_access false
         (Err ERROR_ACCESS_DENIED)])) /\
  (exists c,
     EnableCurrentThreadPrivilege (String Ascii.zero SeDebugPrivilege)
       (machine NoFault) []
     = (Some EINVAL,
        [EvOpenThreadToken CurrentThread thread_token_access false (Ok 256);
         EvTokenClose 256 c])) /\
  (exists c,
     EnableCurrentThreadPrivilege SeDebugPrivilege
       (machine FailLookupPrivilegeValue) []
     = (Some ERROR_ACCESS_DENIED,
        [EvOpenThreadToken CurrentThread thread_token_access false (Ok 256);
         EvLookupPrivilegeValue None SeDebugPrivilege (Err ERROR_ACCESS_DENIED);
         EvTokenClose 256 c])) /\
  (exists c,
     EnableCurrentThreadPrivilege SeDebugPrivilege
       (machine FailAdjustTokenPrivileges) []
     = (Some ERROR_ACCESS_DENIED,
        [EvOpenThreadToken CurrentThread thread_token_access false (Ok 256);
         EvLookupPrivilegeValue None SeDebugPrivilege
           (Ok {| LowPart := 20; HighPart := 0 |});
         EvAdjustTokenPrivileges 256 false
           {| PrivilegeCount := 1;
              Privileges_0 :=
                {| Luid := {| LowPart := 20; HighPart := 0 |};
                   Attributes := SE_PRIVILEGE_ENABLED |} |}
           (Some ERROR_ACCESS_DENIED);
         EvTokenClose 256 c])) /\
  (exists c,
     EnableCurrentThreadPrivilege SeDebugPrivilege (machine NoFault) []
     = (None,
        [EvOpenThreadToken CurrentThread thread_token_access false (Ok 256);
         EvLookupPrivilegeValue None SeDebugPrivilege
           (Ok {| LowPart := 20; HighPart := 0 |});
         EvAdjustTokenPrivileges 256 false
           {| PrivilegeCount := 1;
              Privileges_0 :=
                {| Luid := {| LowPart := 20; HighPart := 0 |};
                   Attributes := SE_PRIVILEGE_ENABLED |} |}
           None;
         EvTokenClose 256 c])).
Proof.
  split; [ | split; [ | split; [ | split]]].
  - apply (proj1 (C7_lookup_then_enable_one_entry SeDebugPrivilege
                    (machine FailOpenThreadToken) []) ERROR_ACCESS_DENIED).
    reflexivity.
  - apply (proj1 (proj2 (C7_lookup_then_enable_one_entry
                    (String Ascii.zero SeDebugPrivilege) (machine NoFault) [])
                    256 eq_refl)).
    reflexivity.
  - apply (proj1 (proj2 (proj2 (C7_lookup_then_enable_one_entry
                    SeDebugPrivilege (machine FailLookupPrivilegeValue) [])
                    256 eq_refl) eq_refl) ERROR_ACCESS_DENIED).
    reflexivity.
  - apply (proj2 (proj2 (proj2 (C7_lookup_then_enable_one_entry
                    SeDebugPrivilege (machine FailAdjustTokenPrivileges) [])
                    256 eq_refl) eq_refl) {| LowPart := 20; HighPart := 0 |}).
    reflexivity.
  - apply (proj2 (proj2 (proj2 (C7_lookup_then_enable_one_entry
                    SeDebugPrivilege (machine NoFault) [])
                    256 eq_refl) eq_refl) {| LowPart := 20; HighPart := 0 |}).
    reflexivity.
Defined.

(** C7 does not hold of every privilege name: at a name with a NUL inside,
    on a machine where nothing fails, no identifier is looked up and no
    privilege set is applied, and the call ends with [EINVAL], an error of
    neither the lookup nor the apply. *)
Lemma C7_counterexample_name_with_NUL :
  result_of (EnableCurrentThreadPrivilege (String Ascii.zero SeDebugPrivilege))
    (machine NoFault) [] = Some EINVAL /\
  (forall sys r,
     ~ In (EvLookupPrivilegeValue sys (String Ascii.zero SeDebugPrivilege) r)
          (calls_of
             (EnableCurrentThreadPrivilege (String Ascii.zero SeDebugPrivilege))
             (machine NoFault) [])) /\
  (forall t disableAll tp r,
     ~ In (EvAdjustTokenPrivileges t disableAll tp r)
          (calls_of
             (EnableCurrentThreadPrivilege (String Ascii.zero SeDebugPrivilege))
             (machine NoFault) [])).
Proof.
  split; [reflexivity | split].
  - intros sys r Hin. vm_compute in Hin.
    destruct Hin as [Hin | [Hin | []]]; discriminate Hin.
  - intros t disableAll tp r Hin. vm_compute in Hin.
    destruct Hin as [Hin | [Hin | []]]; discriminate Hin.
Qed.

(* ===================================================================== *)
(** ** The spawner: every exit path *)
(* ===================================================================== *)

(** Case analysis on the exit path of a [StartProcessAsChild] run. *)
Ltac spawn_paths pid exe X P h :=
  let Hpath := fresh "Hpath" in
  pose proof (SPAC_runs pid exe X P h) as Hpath;
  unfold result_of, calls_of in *;
  destruct (StartProcessAsChild pid exe X P h) as [? ?];
  cbn [fst snd] in *;
  destruct Hpath;
  repeat match goal with
    | H : ECTP_path _ _ _ |- _ => inversion H; subst; clear H
    | H : has_NUL SeDebugPrivilege = true |- _ => discriminate H
    end.

(** *** Handles *)

Lemma remove_one_count x l l' :
  remove_one x l = Some l' ->
  forall y, count_occ Z.eq_dec l y =
            (count_occ Z.eq_dec l' y + if (y =? x)%Z then 1 else 0)%nat.
Proof.
  revert l'. induction l as [ | a l IH]; cbn; intros l' Hrm y.
  - discriminate.
  - destruct (Z.eqb_spec a x) as [-> | Hax].
    + injection Hrm as <-.
      destruct (Z.eq_dec x y) as [-> | Hxy].
      * rewrite Z.eqb_refl. lia.
      * destruct (Z.eqb_spec y x); [congruence | lia].
    + destruct (remove_one x l) as [r | ]; [ | discriminate].
      injection Hrm as <-. cbn. rewrite (IH r eq_refl y).
      destruct (Z.eq_dec a y); lia.
Qed.

(** What the replay of the handles means in numbers: the handles open at the
    end are those open at the start, plus the acquired, minus the released. *)
Lemma live_handles_balance evs : forall open open',
  live_handles open evs = Some open' ->
  forall x,
    (count_occ Z.eq_dec open x + acquisitions x evs =
     count_occ Z.eq_dec open' x + releasings x evs)%nat.
Proof.
  unfold acquisitions, releasings.
  induction evs as [ | ev evs IH]; cbn [live_handles filter]; intros open open' Hl x.
  - injection Hl as <-. reflexivity.
  - unfold acquires at 1, releases at 1.
    destruct (acquired ev) as [a | ].
    + specialize (IH _ _ Hl x). cbn [count_occ] in IH.
      destruct (Z.eq_dec a x) as [-> | Hax].
      * rewrite Z.eqb_refl. cbn [List.length]. lia.
      * destruct (Z.eqb_spec a x); [congruence | lia].
    + destruct (released ev) as [b | ].
      * destruct (remove_one b open) as [o | ] eqn:Hrm; [ | discriminate].
        specialize (IH _ _ Hl x).
        pose proof (remove_one_count _ _ _ Hrm x) as Hc.
        rewrite (Z.eqb_sym x b) in Hc.
        destruct (b =? x); cbn [List.length]; lia.
      * apply (IH _ _ Hl x).
Qed.

Lemma ECTP_live name r el :
  ECTP_path name r el -> forall open, live_handles open el = Some open.
Proof.
  intros Hp open.
  destruct Hp; repeat (progress (cbn; rewrite ?Z.eqb_refl)); reflexivity.
Qed.

(** C2.  Every handle a run of [StartProcessAsChild] opens (the thread token
    inside [EnableCurrentThreadPrivilege], the target process, the target's
    token) is closed once, after it was opened and before the run returns, on
    each exit path: replaying the run from no open handle never closes what
    is not open and ends with no open handle, and each handle value is closed
    as often as it was opened.  The same holds of a run of
    [EnableCurrentThreadPrivilege] on its own. *)
Theorem C2_every_handle_closed_once (parentPID : Z) (exePath name : string)
  (extraEnv : list string) (P : Platform) (h : history) :
  let spawn := calls_of (StartProcessAsChild parentPID exePath extraEnv) P h in
  let elevate := calls_of (EnableCurrentThreadPrivilege name) P h in
  (live_handles [] spawn = Some [] /\
   forall x, acquisitions x spawn = releasings x spawn) /\
  (live_handles [] elevate = Some [] /\
   forall x, acquisitions x elevate = releasings x elevate).
Proof.
  intros spawn elevate.
  assert (Hs : live_handles [] spawn = Some []).
  { subst spawn elevate. spawn_paths parentPID exePath extraEnv P h;
      repeat (progress (cbn; rewrite ?Z.eqb_refl)); reflexivity. }
  assert (He : live_handles [] elevate = Some []).
  { subst elevate. apply (ECTP_live name _ _ (ECTP_runs name P h)). }
  split; (split; [assumption | ]); intros x.
  - apply (live_handles_balance _ _ _ Hs x).
  - apply (live_handles_balance _ _ _ He x).
Qed.

(* ===================================================================== *)
(** ** The spawner: thread pin *)
(* ===================================================================== *)

(** C9.  A run of [StartProcessAsChild] locks its goroutine to the OS thread
    before anything else and unlocks it after everything else.  So every call
    of the run, from [ImpersonateSelf] to [RevertToSelf] and all between
    (elevation, process open, token open, environment, process creation), is
    made with the lock held, hence, whatever the scheduler would do, on one
    and the same OS thread; and the lock count is back where it was at the
    end. *)
Theorem C9_calls_made_on_locked_thread (parentPID : Z) (exePath : string)
  (extraEnv : list string) (P : Platform) (h : history) :
  let evs := calls_of (StartProcessAsChild parentPID exePath extraEnv) P h in
  hd_error evs = Some EvLockOSThread /\
  last evs EvLockOSThread = EvUnlockOSThread /\
  (forall pre ev post,
     evs = pre ++ ev :: post ->
     ev <> EvLockOSThread -> ev <> EvUnlockOSThread ->
     (0 < lock_depth 0 pre)%nat) /\
  (forall sched cur,
     Forall (fun p => snd p = sched h) (runs_on sched 0 cur h evs)) /\
  lock_depth 0 evs = 0%nat.
Proof.
  intros evs.
  assert (Hrun :
    hd_error evs = Some EvLockOSThread /\
    last evs EvLockOSThread = EvUnlockOSThread /\
    pinned_throughout 0 evs = true /\
    (forall sched cur,
       Forall (fun p => snd p = sched h) (runs_on sched 0 cur h evs)) /\
    lock_depth 0 evs = 0%nat).
  { subst evs. spawn_paths parentPID exePath extraEnv P h;
      (split; [reflexivity | split; [reflexivity | split; [reflexivity | ]]]);
      (split; [ | reflexivity]);
      intros sched cur; lazy [runs_on Nat.eqb Nat.pred app];
      repeat (apply Forall_cons; [reflexivity | ]); apply Forall_nil. }
  destruct Hrun as (Hhd & Hlast & Hpin & Hthread & Hdepth).
  repeat split; trivial.
  apply (pinned_throughout_split evs 0%nat Hpin).
Qed.

Lemma C9_calls_made_on_locked_thread_witness :
  (0 < lock_depth 0
         [EvLockOSThread; EvImpersonateSelf SecurityImpersonation None])%nat.
Proof.
  apply (proj1 (proj2 (proj2 (C9_calls_made_on_locked_thread 4242
           "C:\tailscale-ipn.exe" [] (machine FailOpenThreadToken) [])))
           [EvLockOSThread; EvImpersonateSelf SecurityImpersonation None]
           (EvOpenThreadToken CurrentThread thread_token_access false
              (Err ERROR_ACCESS_DENIED))
           [EvRevertToSelf None; EvUnlockOSThread]).
  - reflexivity.
  - discriminate.
  - discriminate.
Defined.

(* ===================================================================== *)
(** ** The spawner: environment *)
(* ===================================================================== *)



(* ===================================================================== *)
(** ** The spawner: impersonation scope and security context *)
(* ===================================================================== *)

(** Frame property of the platform model: a log whose adjustments all go to
    the thread's impersonation token leaves the primary token alone. *)
Lemma adjusts_thread_token_frame evs : forall s,
  adjusts_thread_token s evs = true ->
  ambient (replay s evs) = ambient s /\ self (replay s evs) = self s.
Proof.
  unfold replay.
  induction evs as [ | ev evs IH]; cbn [adjusts_thread_token fold_left];
    intros s Hadj.
  - split; reflexivity.
  - apply andb_true_iff in Hadj as [Hev Hrest].
    destruct (IH _ Hrest) as [Ha Hs]. rewrite Ha, Hs.
    clear IH Hrest Ha Hs.
    destruct ev; cbn in *;
      repeat match goal with
        | |- context [match ?x with _ => _ end] =>
            let E := fresh "E" in
            destruct x eqn:E; try rewrite E in Hev; cbn in *
        end;
      try discriminate Hev; split; reflexivity.
Qed.

Lemma spawn_adjusts_thread_token parentPID exePath extraEnv P h s :
  adjusts_thread_token s
    (calls_of (StartProcessAsChild parentPID exePath extraEnv) P h) = true.
Proof.
  spawn_paths parentPID exePath extraEnv P h;
    repeat (progress (cbn; rewrite ?Z.eqb_refl)); reflexivity.
Qed.

(** All but the last two entries of a list given entry by entry. *)
Ltac all_but_last_two l :=
  lazymatch l with
  | [_; _] => constr:(@nil event)
  | ?a :: ?rest => let p := all_but_last_two rest in constr:(a :: p)
  end.

(** C3.  In a run of [StartProcessAsChild] where [ImpersonateSelf] succeeded,
    [RevertToSelf] is called, once, on every exit path (a failed privilege
    elevation included): it is the last call of the run before the thread is
    unlocked.  And whatever the run did, the primary token of the calling
    process, its ambient security context, is after the run what it was
    before. *)
Theorem C3_scope_released_and_context_kept (parentPID : Z) (exePath : string)
  (extraEnv : list string) (P : Platform) (h : history) :
  let evs := calls_of (StartProcessAsChild parentPID exePath extraEnv) P h in
  (forall level, In (EvImpersonateSelf level None) evs ->
     exists pre c,
       evs = pre ++ [EvRevertToSelf c; EvUnlockOSThread] /\
       existsb is_RevertToSelf pre = false) /\
  (existsb elevation_failed evs = true ->
     exists pre c,
       evs = pre ++ [EvRevertToSelf c; EvUnlockOSThread] /\
       existsb is_RevertToSelf pre = false) /\
  (forall s, ambient (replay s evs) = ambient s).
Proof.
  intros evs. split; [ | split].
  - subst evs. intros level.
    spawn_paths parentPID exePath extraEnv P h; cbn [In app]; intros Hin.
    1: { repeat (destruct Hin as [Hin | Hin]; try discriminate Hin).
         contradiction. }
    all: clear Hin;
      match goal with
      | |- exists pre c, ?l = _ /\ _ =>
          let p := all_but_last_two l in
          exists p; eexists; split; reflexivity
      end.
  - subst evs.
    spawn_paths parentPID exePath extraEnv P h; cbn [app]; intros Hf;
      try (cbn in Hf; discriminate Hf);
      try match goal with
        | H : existsb _ (_ :: _ :: _ :: _ :: _ :: EvTokenClose _ _ :: _) = true
          |- _ => cbn in H; discriminate H
        end.
    all: clear Hf;
      match goal with
      | |- exists pre c, ?l = _ /\ _ =>
          let p := all_but_last_two l in
          exists p; eexists; split; reflexivity
      end.
  - intros s.
    apply (adjusts_thread_token_frame evs s
             (spawn_adjusts_thread_token parentPID exePath extraEnv P h s)).
Qed.

Lemma C3_scope_released_and_context_kept_witness :
  (exists pre c,
     calls_of (StartProcessAsChild 4242 "C:\tailscale-ipn.exe" [])
       (machine FailAdjustTokenPrivileges) [] =
     pre ++ [EvRevertToSelf c; EvUnlockOSThread] /\
     existsb is_RevertToSelf pre = false) /\
  (exists pre c,
     calls_of (StartProcessAsChild 4242 "C:\tailscale-ipn.exe" [])
       (machine FailLookupPrivilegeValue) [] =
     pre ++ [EvRevertToSelf c; EvUnlockOSThread] /\
     existsb is_RevertToSelf pre = false).
Proof.
  split.
  - apply (proj1 (C3_scope_released_and_context_kept 4242 "C:\tailscale-ipn.exe"
                    [] (machine FailAdjustTokenPrivileges) [])
             SecurityImpersonation).
    vm_compute. tauto.
  - apply (proj1 (proj2 (C3_scope_released_and_context_kept 4242
                    "C:\tailscale-ipn.exe" []
                    (machine FailLookupPrivilegeValue) []))).
    vm_compute. reflexivity.
Defined.

(* ===================================================================== *)
(** ** The spawner: order of the steps *)
(* ===================================================================== *)

(** C1.  A run of [StartProcessAsChild] goes through the steps of the spawn
    sequence in their order, each at most once, and stops at the first call
    that fails: that call's error is the result, and only releases follow it.
    A run that returns no error went through all the steps.  In particular a
    run whose privilege elevation failed opens no process; and every call of
    the elevation is made after [ImpersonateSelf] succeeded and before
    [RevertToSelf], on a token opened from the current thread, which is then
    the thread's impersonation token and not the primary token of the
    process. *)
Theorem C1_spawn_steps_in_order_first_failure_aborts (parentPID : Z)
  (exePath : string) (extraEnv : list string) (P : Platform) (h : history) :
  let r := result_of (StartProcessAsChild parentPID exePath extraEnv) P h in
  let evs := calls_of (StartProcessAsChild parentPID exePath extraEnv) P h in
  (exists k, steps_run evs = firstn k all_steps) /\
  r = first_failure evs /\
  (forall pre ev post e,
     evs = pre ++ ev :: post ->
     Forall (fun x => failure_of x = None) pre ->
     failure_of ev = Some e ->
     r = Some e /\ Forall (fun x => is_release x = true) post) /\
  (r = None -> steps_run evs = all_steps) /\
  (existsb elevation_failed evs = true -> existsb is_OpenProcess evs = false) /\
  (forall pre ev post,
     evs = pre ++ ev :: post ->
     is_elevation ev = true ->
     (exists p1 level p2,
        pre = p1 ++ EvImpersonateSelf level None :: p2 /\
        existsb is_RevertToSelf p2 = false) /\
     existsb is_RevertToSelf post = true) /\
  (forall s, adjusts_thread_token s evs = true).
Proof.
  intros r evs.
  assert (Hrun :
    (exists k, steps_run evs = firstn k all_steps) /\
    r = first_failure evs /\
    aborts_at_first_failure evs = true /\
    (r = None -> steps_run evs = all_steps) /\
    (existsb elevation_failed evs = true ->
     existsb is_OpenProcess evs = false) /\
    elevation_inside_scope false evs = true /\
    elevation_reverted evs = true).
  { subst r evs.
    spawn_paths parentPID exePath extraEnv P h;
      try match goal with
        | |- context [EvCmdStart _ ?r] => destruct r
        end;
      (split;
       [ first [ exists 1%nat; reflexivity | exists 2%nat; reflexivity
               | exists 3%nat; reflexivity | exists 4%nat; reflexivity
               | exists 5%nat; reflexivity | exists 6%nat; reflexivity ]
       | repeat split; trivial; cbn; intros; congruence ]). }
  destruct Hrun as (Hk & Hr & Hab & Hall & Hop & Hin & Hrev).
  split; [exact Hk | ]. split; [exact Hr | ].
  split; [ | split; [exact Hall | split; [exact Hop | split]]].
  - intros pre ev post e Hsplit Hpre Hev. split.
    + rewrite Hr, Hsplit. apply first_failure_app; assumption.
    + apply (aborts_at_first_failure_split evs Hab pre ev post e); assumption.
  - intros pre ev post Hsplit Hev. split.
    + destruct (elevation_inside_scope_split evs false Hin pre ev post
                  Hsplit Hev) as [[Hopen _] | Hscope].
      * discriminate Hopen.
      * exact Hscope.
    + apply (elevation_reverted_split evs Hrev pre ev post Hsplit Hev).
  - intros s. apply spawn_adjusts_thread_token.
Qed.

Lemma C1_spawn_steps_in_order_first_failure_aborts_witness :
  steps_run (calls_of (StartProcessAsChild 4242 "C:\tailscale-ipn.exe" [])
               (machine NoFault) []) = all_steps /\
  existsb is_OpenProcess
    (calls_of (StartProcessAsChild 4242 "C:\tailscale-ipn.exe" [])
       (machine FailAdjustTokenPrivileges) []) = false /\
  (result_of (StartProcessAsChild 4242 "C:\tailscale-ipn.exe" [])
     (machine FailOpenProcessToken) [] = Some ERROR_ACCESS_DENIED /\
   Forall (fun x => is_release x = true)
     [EvCloseHandle 280 None; EvRevertToSelf None; EvUnlockOSThread]).
Proof.
  split; [ | split].
  - apply (proj1 (proj2 (proj2 (proj2
             (C1_spawn_steps_in_order_first_failure_aborts 4242
                "C:\tailscale-ipn.exe" [] (machine NoFault) []))))).
    vm_compute. reflexivity.
  - apply (proj1 (proj2 (proj2 (proj2 (proj2
             (C1_spawn_steps_in_order_first_failure_aborts 4242
                "C:\tailscale-ipn.exe" [] (machine FailAdjustTokenPrivileges)
                [])))))).
    vm_compute. reflexivity.
  - apply (proj1 (proj2 (proj2
             (C1_spawn_steps_in_order_first_failure_aborts 4242
                "C:\tailscale-ipn.exe" [] (machine FailOpenProcessToken) [])))
             [EvLockOSThread; EvImpersonateSelf SecurityImpersonation None;
              EvOpenThreadToken CurrentThread thread_token_access false (Ok 264);
              EvLookupPrivilegeValue None SeDebugPrivilege
                (Ok {| LowPart := 20; HighPart := 0 |});
              EvAdjustTokenPrivileges 264 false
                (tp_enable {| LowPart := 20; HighPart := 0 |}) None;
              EvTokenClose 264 None;
              EvOpenProcess spawn_access false 4242 (Ok 280)]
             (EvOpenProcessToken 280 TOKEN_QUERY (Err ERROR_ACCESS_DENIED))
             [EvCloseHandle 280 None; EvRevertToSelf None; EvUnlockOSThread]
             ERROR_ACCESS_DENIED).
    + vm_compute. reflexivity.
    + repeat constructor.
    + reflexivity.
Defined.

(* ===================================================================== *)
(** ** Every exit path of the locator and of the entry point *)
(* ===================================================================== *)

Lemma uint32_range x : 0 <= uint32 x < 2 ^ 32.
Proof. unfold uint32. apply Z.mod_pos_bound. reflexivity. Qed.

Lemma GDP_runs P h :
  GDP_path (result_of GetDesktopPID P h) (calls_of GetDesktopPID P h).
Proof.
  unfold GetDesktopPID. unfold_prims. unfold_go. cbn.
  set (hwnd := uintptr (os_GetShellWindow P h)).
  destruct (Z.eqb_spec hwnd 0) as [Hw | Hw]; cbn.
  - rewrite Hw. constructor.
  - rewrite app_nil_r.
    set (pid := uint32 (os_GetWindowThreadProcessId P
                          (h ++ [EvGetShellWindow hwnd]) hwnd)).
    pose proof (uint32_range (os_GetWindowThreadProcessId P
                                (h ++ [EvGetShellWindow hwnd]) hwnd)) as Hr.
    fold pid in Hr.
    destruct (Z.eqb_spec pid 0) as [Hp | Hp]; cbn.
    + rewrite Hp. apply GDP_no_process. exact Hw.
    + apply GDP_found; [exact Hw | lia].
Qed.

Lemma SPGU_runs exePath extraEnv P h :
  SPGU_path exePath extraEnv
    (result_of (StartProcessAsCurrentGUIUser exePath extraEnv) P h)
    (calls_of (StartProcessAsCurrentGUIUser exePath extraEnv) P h).
Proof.
  pose proof (GDP_runs P h) as Hloc.
  unfold StartProcessAsCurrentGUIUser, result_of, calls_of in *.
  unfold_go. cbn.
  destruct (GetDesktopPID P h) as [[pid err] el]. cbn in *.
  destruct err as [err | ]; cbn.
  - rewrite !app_nil_r. apply (SPGU_no_desktop _ _ pid). exact Hloc.
  - rewrite !app_nil_r.
    pose proof (SPAC_runs pid exePath extraEnv P (h ++ el)) as Hsp.
    unfold result_of, calls_of in Hsp.
    destruct (StartProcessAsChild pid exePath extraEnv P (h ++ el))
      as [[e | ] es]; cbn in *; rewrite ?app_nil_r.
    + apply (SPGU_not_started _ _ pid); assumption.
    + apply (SPGU_started _ _ pid); assumption.
Qed.

(* ===================================================================== *)
(** ** More on the registry lookups *)
(* ===================================================================== *)

Ltac unfold_registry :=
  unfold getPolicyString, getPolicyInteger, getRegString, getRegInteger,
    getRegStringInternal, getRegIntegerInternal.

(** Case analysis on where an event sits in a list given entry by entry. *)
Ltac in_cases H :=
  cbn [In] in H;
  repeat (destruct H as [H | H]; try discriminate H);
  try contradiction.

(** Every registry lookup of the package works on one key at a time: it
    opens a key only when it holds none, reads only from the key it holds,
    and has closed the key it opened when it returns, whether the read
    succeeded or not; a key that could not be opened is neither read nor
    closed. *)
Theorem registry_lookups_hold_one_key_and_close_it (subKey name defS : string)
  (defI : Z) (P : Platform) (h : history) :
  one_key_at_a_time None (calls_of (getRegStringInternal subKey name) P h)
    = Some None /\
  one_key_at_a_time None (calls_of (getRegIntegerInternal subKey name) P h)
    = Some None /\
  one_key_at_a_time None (calls_of (getRegString name defS) P h) = Some None /\
  one_key_at_a_time None (calls_of (getRegInteger name defI) P h) = Some None /\
  one_key_at_a_time None (calls_of (getPolicyString name defS) P h)
    = Some None /\
  one_key_at_a_time None (calls_of (getPolicyInteger name defI) P h)
    = Some None.
Proof.
  repeat split; unfold_registry; unfold_prims; unfold_go; cbn;
    repeat (rewrite ?Z.eqb_refl; next_answer; cbn);
    rewrite ?Z.eqb_refl; reflexivity.
Qed.

(** What a registry read sends to the log and what it returns on failure.  A
    key that cannot be opened is logged, whatever the error, and the read
    returns the empty string (zero for an integer) with that error.  A value
    that cannot be read is logged unless the error is [ErrNotExist], and the
    read returns the zero value with that error.  A read that succeeds logs
    nothing. *)
Theorem registry_read_logs_all_but_a_missing_value (subKey name : string)
  (P : Platform) (h : history) :
  let rs := result_of (getRegStringInternal subKey name) P h in
  let es := calls_of (getRegStringInternal subKey name) P h in
  let ri := result_of (getRegIntegerInternal subKey name) P h in
  let ei := calls_of (getRegIntegerInternal subKey name) P h in
  ((forall k p a e, In (EvRegOpenKey k p a (Err e)) es ->
      log_lines es = [OpenKey_line subKey e] /\ rs = (EmptyString, Some e)) /\
   (forall k n e, In (EvRegGetStringValue k n (Err e)) es ->
      log_lines es =
        (if is_ErrNotExist e then [] else [GetStringValue_line name e]) /\
      rs = (EmptyString, Some e)) /\
   (snd rs = None -> log_lines es = [])) /\
  ((forall k p a e, In (EvRegOpenKey k p a (Err e)) ei ->
      log_lines ei = [OpenKey_line subKey e] /\ ri = (0, Some e)) /\
   (forall k n e, In (EvRegGetIntegerValue k n (Err e)) ei ->
      log_lines ei =
        (if is_ErrNotExist e then [] else [GetIntegerValue_line name e]) /\
      ri = (0, Some e)) /\
   (snd ri = None -> log_lines ei = [])).
Proof.
  intros rs es ri ei. subst rs es ri ei.
  split; unfold_registry; run_go;
    (split; [ | split]);
    try (intros k' p' a' e' Hin; in_cases Hin;
         injection Hin as _ _ _ <-; split; reflexivity);
    try (intros k' n' e' Hin; in_cases Hin;
         injection Hin as _ _ <-;
         match goal with
         | H : negb (is_ErrNotExist _) = _ |- _ =>
             apply (f_equal negb) in H; rewrite negb_involutive in H;
             cbn in H; rewrite H
         end;
         split; reflexivity);
    try (intros Hnil; solve [reflexivity | discriminate Hnil]).
Qed.

Lemma registry_read_logs_all_but_a_missing_value_witness :
  log_lines (calls_of (getRegStringInternal regPolicyBase "LogTarget")
               registry_empty [])
    = (if is_ErrNotExist ERROR_NOT_FOUND then []
       else [GetStringValue_line "LogTarget" ERROR_NOT_FOUND]) /\
  result_of (getRegStringInternal regPolicyBase "LogTarget") registry_empty []
    = (EmptyString, Some ERROR_NOT_FOUND).
Proof.
  apply (proj1 (proj2 (proj1 (registry_read_logs_all_but_a_missing_value
           regPolicyBase "LogTarget" registry_empty [])))
           policy_key "LogTarget"%string ERROR_NOT_FOUND).
  vm_compute. tauto.
Defined.

(** A registry read returns no error exactly when it read a value, and the
    value it returns is then the one the registry gave; with an error the
    value returned is empty (zero for an integer). *)
Theorem registry_read_succeeds_iff_value_read (subKey name : string)
  (P : Platform) (h : history) :
  let rs := result_of (getRegStringInternal subKey name) P h in
  let es := calls_of (getRegStringInternal subKey name) P h in
  let ri := result_of (getRegIntegerInternal subKey name) P h in
  let ei := calls_of (getRegIntegerInternal subKey name) P h in
  ((snd rs = None <->
    exists k ty, In (EvRegGetStringValue k name (Ok (fst rs, ty))) es) /\
   (snd rs <> None -> fst rs = EmptyString)) /\
  ((snd ri = None <->
    exists k ty, In (EvRegGetIntegerValue k name (Ok (fst ri, ty))) ei) /\
   (snd ri <> None -> fst ri = 0)).
Proof.
  intros rs es ri ei. subst rs es ri ei.
  split; unfold_registry; run_go;
    (split; [split | ]);
    try (intros _; eexists; eexists; cbn; right; left; reflexivity);
    try (intros (k' & ty' & Hin); in_cases Hin);
    try (intros Hnil; solve [reflexivity | discriminate Hnil | congruence]);
    try reflexivity.
Qed.

Lemma registry_read_succeeds_iff_value_read_witness :
  fst (result_of (getRegStringInternal regBase "LogTarget") registry_empty [])
    = EmptyString /\
  snd (result_of (getRegIntegerInternal regBase "FlushDNSOnSessionUnlock")
         registry_legacy []) = None.
Proof.
  split.
  - apply (proj2 (proj1 (registry_read_succeeds_iff_value_read regBase
             "LogTarget" registry_empty []))).
    discriminate.
  - apply (proj1 (proj2 (registry_read_succeeds_iff_value_read regBase
             "FlushDNSOnSessionUnlock" registry_legacy []))).
    exists legacy_key, 1. vm_compute. tauto.
Defined.

(** The configuration lookups only read: every key they open is one of the
    two keys of the package under [HKEY_LOCAL_MACHINE], opened with [READ]
    access, and they make no call outside the registry and the log.  The
    legacy lookups [getRegString] and [getRegInteger] never open the policy
    key. *)
Theorem configuration_lookups_only_read (name defS : string) (defI : Z)
  (P : Platform) (h : history) :
  forallb is_registry_read (calls_of (getPolicyString name defS) P h) = true /\
  forallb is_registry_read (calls_of (getPolicyInteger name defI) P h) = true /\
  forallb is_registry_read (calls_of (getRegString name defS) P h) = true /\
  forallb is_registry_read (calls_of (getRegInteger name defI) P h) = true /\
  existsb (opens_key regPolicyBase) (calls_of (getRegString name defS) P h)
    = false /\
  existsb (opens_key regPolicyBase) (calls_of (getRegInteger name defI) P h)
    = false.
Proof.
  repeat split; unfold_registry; run_go; reflexivity.
Qed.

(* ===================================================================== *)
(** ** More on the privilege elevator *)
(* ===================================================================== *)

(** When the thread has no token to open (the thread is not impersonating,
    say), [EnableCurrentThreadPrivilege] returns the error of
    [OpenThreadToken] and makes no other call: nothing is looked up, adjusted
    or closed. *)
Theorem elevation_stops_without_thread_token (name : string) (P : Platform)
  (h : history) (th : Handle) (acc : Z) (oas : bool) (e : error) :
  In (EvOpenThreadToken th acc oas (Err e))
     (calls_of (EnableCurrentThreadPrivilege name) P h) ->
  EnableCurrentThreadPrivilege name P h =
    (Some e, [EvOpenThreadToken CurrentThread thread_token_access false (Err e)]).
Proof.
  pose proof (ECTP_runs name P h) as Hpath.
  unfold result_of, calls_of in *.
  destruct (EnableCurrentThreadPrivilege name P h) as [r evs]. cbn [fst snd] in *.
  destruct Hpath; intros Hin; in_cases Hin.
  injection Hin; intros; subst. reflexivity.
Qed.

Lemma elevation_stops_without_thread_token_witness :
  EnableCurrentThreadPrivilege SeDebugPrivilege (machine FailOpenThreadToken) []
  = (Some ERROR_ACCESS_DENIED,
     [EvOpenThreadToken CurrentThread thread_token_access false
        (Err ERROR_ACCESS_DENIED)]).
Proof.
  apply (elevation_stops_without_thread_token SeDebugPrivilege
           (machine FailOpenThreadToken) [] CurrentThread thread_token_access
           false ERROR_ACCESS_DENIED).
  vm_compute. tauto.
Defined.

(** A privilege name with a NUL inside is refused before the platform is
    asked about it: the call fails, with [EINVAL] when the thread token could
    be opened, no identifier is looked up, nothing is adjusted, and the token
    that was opened is closed. *)
Theorem elevation_refuses_name_with_NUL (name : string) (P : Platform)
  (h : history) :
  let r := result_of (EnableCurrentThreadPrivilege name) P h in
  let evs := calls_of (EnableCurrentThreadPrivilege name) P h in
  has_NUL name = true ->
  r <> None /\
  existsb is_LookupPrivilegeValue evs = false /\
  existsb is_AdjustTokenPrivileges evs = false /\
  (forall th acc oas t,
     In (EvOpenThreadToken th acc oas (Ok t)) evs ->
     r = Some EINVAL /\
     exists c,
       evs = [EvOpenThreadToken CurrentThread thread_token_access false (Ok t);
              EvTokenClose t c]).
Proof.
  intros r evs. subst r evs.
  pose proof (ECTP_runs name P h) as Hpath.
  unfold result_of, calls_of in *.
  destruct (EnableCurrentThreadPrivilege name P h) as [r evs]. cbn [fst snd] in *.
  destruct Hpath; intros Hnul; try congruence;
    (split; [discriminate | split; [reflexivity | split; [reflexivity | ]]]);
    intros th acc oas t' Hin; in_cases Hin.
  injection Hin; intros; subst. split; [reflexivity | ]. eexists. reflexivity.
Qed.

Lemma elevation_refuses_name_with_NUL_witness :
  result_of (EnableCurrentThreadPrivilege (String Ascii.zero SeDebugPrivilege))
    (machine NoFault) [] <> None /\
  existsb is_LookupPrivilegeValue
    (calls_of (EnableCurrentThreadPrivilege (String Ascii.zero SeDebugPrivilege))
       (machine NoFault) []) = false.
Proof.
  split.
  - apply (proj1 (elevation_refuses_name_with_NUL
                    (String Ascii.zero SeDebugPrivilege) (machine NoFault) []
                    eq_refl)).
  - apply (proj1 (proj2 (elevation_refuses_name_with_NUL
                    (String Ascii.zero SeDebugPrivilege) (machine NoFault) []
                    eq_refl))).
Defined.

(** [EnableCurrentThreadPrivilege] returns no error exactly when the
    adjustment was handed to the platform and the platform accepted it.  An
    adjustment is made at most once, never with [disableAll], and on the
    token the call opened from the current thread. *)
Theorem elevation_succeeds_iff_adjustment_accepted (name : string)
  (P : Platform) (h : history) :
  let r := result_of (EnableCurrentThreadPrivilege name) P h in
  let evs := calls_of (EnableCurrentThreadPrivilege name) P h in
  (r = None <-> exists t tp, In (EvAdjustTokenPrivileges t false tp None) evs) /\
  (count is_AdjustTokenPrivileges evs <= 1)%nat /\
  (forall t disableAll tp err,
     In (EvAdjustTokenPrivileges t disableAll tp err) evs ->
     disableAll = false /\ r = err /\
     In (EvOpenThreadToken CurrentThread thread_token_access false (Ok t)) evs).
Proof.
  intros r evs. subst r evs.
  pose proof (ECTP_runs name P h) as Hpath.
  unfold result_of, calls_of in *.
  destruct (EnableCurrentThreadPrivilege name P h) as [r evs]. cbn [fst snd] in *.
  destruct Hpath; (split; [split | split]);
    try (intros Hnil; discriminate Hnil);
    try (intros (t' & tp' & Hin); in_cases Hin);
    try (cbn; lia);
    try (intros t' d' tp' err' Hin; in_cases Hin).
  all: lazymatch goal with
    | Hin : EvAdjustTokenPrivileges _ _ _ _ = _ |- _ =>
        injection Hin; intros; subst;
        repeat split; try reflexivity; left; reflexivity
    | |- _ = None -> _ =>
        intros ->; do 2 eexists; cbn; right; right; left; reflexivity
    end.
Qed.

Lemma elevation_succeeds_iff_adjustment_accepted_witness :
  result_of (EnableCurrentThreadPrivilege SeDebugPrivilege) (machine NoFault) []
  = None.
Proof.
  apply (proj1 (elevation_succeeds_iff_adjustment_accepted SeDebugPrivilege
                  (machine NoFault) [])).
  exists 256, (tp_enable {| LowPart := 20; HighPart := 0 |}).
  vm_compute. tauto.
Defined.

(* ===================================================================== *)
(** ** More on the spawner *)
(* ===================================================================== *)

(** A list has one way only to be cut at its one entry of a kind. *)
Lemma split_unique (f : event -> bool) pre : forall x post pre' y post',
  pre ++ x :: post = pre' ++ y :: post' ->
  f x = true -> f y = true ->
  existsb f pre = false -> existsb f post = false ->
  pre' = pre /\ y = x /\ post' = post.
Proof.
  induction pre as [ | a pre IH]; intros x post pre' y post' Heq Hx Hy Hpre Hpost.
  - destruct pre' as [ | b pre']; cbn in Heq.
    + injection Heq as -> ->. repeat split.
    + injection Heq as -> ->.
      rewrite existsb_app in Hpost. cbn in Hpost. rewrite Hy in Hpost.
      rewrite orb_true_r in Hpost. discriminate.
  - cbn in Hpre. apply orb_false_iff in Hpre as [Ha Hpre].
    destruct pre' as [ | b pre']; cbn in Heq.
    + injection Heq as -> _. congruence.
    + injection Heq as -> Heq.
      destruct (IH _ _ _ _ _ Heq Hx Hy Hpre Hpost) as (-> & -> & ->).
      repeat split.
Qed.

Lemma no_split (f : event -> bool) l pre x post :
  existsb f l = false -> l = pre ++ x :: post -> f x = true -> False.
Proof.
  intros Hl -> Hx. rewrite existsb_app in Hl. cbn in Hl. rewrite Hx in Hl.
  rewrite orb_true_r in Hl. discriminate.
Qed.

Ltac before_start l :=
  lazymatch l with
  | EvCmdStart _ _ :: _ => constr:(@nil event)
  | ?a :: ?rest => let p := before_start rest in constr:(a :: p)
  end.

Ltac after_start l :=
  lazymatch l with
  | EvCmdStart _ _ :: ?rest => rest
  | _ :: ?rest => after_start rest
  end.

(** Cuts the log of a run at its process creation, when [Hs] says it has one. *)
Ltac cut_at_start Hs :=
  cbn [app] in Hs;
  first
    [ match type of Hs with
      | ?L = ?pre ++ ?x :: ?post =>
          exfalso; exact (no_split is_CmdStart L pre x post eq_refl Hs eq_refl)
      end
    | match type of Hs with
      | ?L = ?pre ++ _ :: ?post =>
          let p := before_start L in
          let q := after_start L in
          let Hc := fresh "Hc" in
          destruct (split_unique is_CmdStart p _ q pre _ post Hs
                      eq_refl eq_refl eq_refl eq_refl) as (-> & Hc & ->);
          injection Hc; intros; subst; clear Hc Hs
      end ].

(** When [ImpersonateSelf] fails, [StartProcessAsChild] returns its error
    having done nothing but lock and unlock the thread: no token or process
    is opened and [RevertToSelf] is not called.  In every run [RevertToSelf]
    is called as often as [ImpersonateSelf] succeeded, at most once, and
    [UnlockOSThread] exactly once. *)
Theorem spawn_reverts_only_what_it_impersonated (parentPID : Z)
  (exePath : string) (extraEnv : list string) (P : Platform) (h : history) :
  let evs := calls_of (StartProcessAsChild parentPID exePath extraEnv) P h in
  (forall level e, In (EvImpersonateSelf level (Some e)) evs ->
     StartProcessAsChild parentPID exePath extraEnv P h =
       (Some e,
        [EvLockOSThread; EvImpersonateSelf SecurityImpersonation (Some e);
         EvUnlockOSThread])) /\
  count is_RevertToSelf evs = count is_ImpersonateSelf_ok evs /\
  (count is_RevertToSelf evs <= 1)%nat /\
  count is_UnlockOSThread evs = 1%nat.
Proof.
  intros evs. subst evs.
  spawn_paths parentPID exePath extraEnv P h;
    (split; [intros level e' Hin; in_cases Hin | repeat split; cbn; lia]).
  injection Hin; intros; subst. reflexivity.
Qed.

Lemma spawn_reverts_only_what_it_impersonated_witness :
  StartProcessAsChild 4242 "C:\tailscale-ipn.exe" []
    (machine FailImpersonateSelf) [] =
  (Some ERROR_ACCESS_DENIED,
   [EvLockOSThread;
    EvImpersonateSelf SecurityImpersonation (Some ERROR_ACCESS_DENIED);
    EvUnlockOSThread]).
Proof.
  apply (proj1 (spawn_reverts_only_what_it_impersonated 4242
                  "C:\tailscale-ipn.exe" [] (machine FailImpersonateSelf) [])
           SecurityImpersonation ERROR_ACCESS_DENIED).
  vm_compute. tauto.
Defined.

(** [StartProcessAsChild] asks for the process creation at most once, and
    what the creation reports is what the run returns: the run succeeds
    exactly when a creation was asked for and accepted.  The creation comes
    after the five earlier steps, none of which failed, and only releases
    come after it. *)
Theorem spawn_creates_once_and_returns_its_outcome (parentPID : Z)
  (exePath : string) (extraEnv : list string) (P : Platform) (h : history) :
  let r := result_of (StartProcessAsChild parentPID exePath extraEnv) P h in
  let evs := calls_of (StartProcessAsChild parentPID exePath extraEnv) P h in
  (count is_CmdStart evs <= 1)%nat /\
  (r = None <-> exists cmd, In (EvCmdStart cmd None) evs) /\
  (forall pre cmd err post,
     evs = pre ++ EvCmdStart cmd err :: post ->
     r = err /\
     first_failure pre = None /\
     steps_run pre = [1; 2; 3; 4; 5]%nat /\
     forallb is_release post = true).
Proof.
  intros r evs. subst r evs.
  spawn_paths parentPID exePath extraEnv P h;
    (split; [cbn; lia | split; [split | ]]);
    try (intros Hnil; discriminate Hnil);
    try (intros (cmd' & Hin); in_cases Hin);
    try (intros pre cmd' err' post Hs; cut_at_start Hs; repeat split).
  - intros ->. eexists. cbn. do 9 right. left. reflexivity.
  - cbn [In app] in Hin. in_cases Hin. injection Hin; intros; subst.
    reflexivity.
Qed.

Lemma spawn_creates_once_and_returns_its_outcome_witness :
  result_of (StartProcessAsChild 4242 "C:\tailscale-ipn.exe" [])
    (machine NoFault) [] = None.
Proof.
  apply (proj1 (proj2 (spawn_creates_once_and_returns_its_outcome 4242
                  "C:\tailscale-ipn.exe" [] (machine NoFault) []))).
  exists (spawn_cmd "C:\tailscale-ipn.exe" "C:\tailscale-ipn.exe"
            ["A=1"; "B=2"]%string 280).
  vm_compute. tauto.
Defined.

(** The command [StartProcessAsChild] starts has no argument beyond the
    program name as given, and its parent is the handle the run opened for
    [parentPID]: that handle is still open when the creation is asked for. *)
Theorem spawn_parent_handle_is_open_at_creation (parentPID : Z)
  (exePath : string) (extraEnv : list string) (P : Platform) (h : history)
  (pre post : list event) (cmd : Cmd) (err : option error) :
  calls_of (StartProcessAsChild parentPID exePath extraEnv) P h =
    pre ++ EvCmdStart cmd err :: post ->
  exists ph open,
    Args cmd = [exePath] /\
    SysProcAttr_ cmd = Some {| ParentProcess := ph |} /\
    In (EvOpenProcess spawn_access false parentPID (Ok ph)) pre /\
    live_handles [] pre = Some open /\ In ph open.
Proof.
  spawn_paths parentPID exePath extraEnv P h; intros Hs; cut_at_start Hs.
  eexists. eexists.
  repeat (progress (cbn; rewrite ?Z.eqb_refl)).
  repeat split; try reflexivity.
  - do 6 right. left. reflexivity.
  - right. left. reflexivity.
Qed.

Lemma spawn_parent_handle_is_open_at_creation_witness :
  exists ph open,
    Args (spawn_cmd "C:\Windows\System32\notepad.exe" "notepad.exe"
            ["A=1"; "B=2"; "C=3"]%string 280)
      = ["notepad.exe"%string] /\
    SysProcAttr_
      (spawn_cmd "C:\Windows\System32\notepad.exe" "notepad.exe"
         ["A=1"; "B=2"; "C=3"]%string 280)
      = Some {| ParentProcess := ph |} /\
    In (EvOpenProcess spawn_access false 4242 (Ok ph))
       (firstn 9 (snd (spawn_on NoFault))) /\
    live_handles [] (firstn 9 (snd (spawn_on NoFault))) = Some open /\
    In ph open.
Proof.
  apply (spawn_parent_handle_is_open_at_creation 4242 "notepad.exe"
           ["C=3"%string] (machine NoFault) []
           (firstn 9 (snd (spawn_on NoFault)))
           (skipn 10 (snd (spawn_on NoFault)))
           (spawn_cmd "C:\Windows\System32\notepad.exe" "notepad.exe"
              ["A=1"; "B=2"; "C=3"]%string 280)
           None).
  reflexivity.
Defined.

(** Finds where an event sits in a list given entry by entry. *)
Ltac find_in := cbn [In app]; repeat (first [left; reflexivity | right]).

(** [StartProcessAsChild] touches its target and nothing else: the one
    process it opens is [parentPID], without handle inheritance; the one
    token it opens from a process is that process's, for query only; the one
    environment it reads is that token's, without the caller's. *)
Theorem spawn_touches_only_its_target (parentPID : Z) (exePath : string)
  (extraEnv : list string) (P : Platform) (h : history) :
  let evs := calls_of (StartProcessAsChild parentPID exePath extraEnv) P h in
  (count is_OpenProcess evs <= 1)%nat /\
  (forall access inherit pid r,
     In (EvOpenProcess access inherit pid r) evs ->
     access = spawn_access /\ inherit = false /\ pid = parentPID) /\
  (forall ph access r,
     In (EvOpenProcessToken ph access r) evs ->
     access = TOKEN_QUERY /\
     In (EvOpenProcess spawn_access false parentPID (Ok ph)) evs) /\
  (forall t inherit r,
     In (EvTokenEnviron t inherit r) evs ->
     inherit = false /\
     exists ph, In (EvOpenProcessToken ph TOKEN_QUERY (Ok t)) evs).
Proof.
  intros evs. subst evs.
  spawn_paths parentPID exePath extraEnv P h;
    (split; [cbn; lia | split; [ | split]]);
    intros ? ? ? ? Hin || intros ? ? ? Hin;
    cbn [In app] in Hin; in_cases Hin;
    injection Hin; intros; subst;
    repeat split; try (eexists; find_in); find_in.
Qed.

Lemma spawn_touches_only_its_target_witness :
  spawn_access = spawn_access /\ false = false /\ 4242 = 4242.
Proof.
  apply (proj1 (proj2 (spawn_touches_only_its_target 4242
                  "C:\tailscale-ipn.exe" [] (machine FailOpenProcess) []))
           spawn_access false 4242 (Err ERROR_ACCESS_DENIED)).
  vm_compute. tauto.
Defined.

(** What a run of [StartProcessAsChild] leaves of the thread's impersonation:
    once [RevertToSelf] reported success the thread impersonates nothing,
    whatever it impersonated before the run; and a run whose
    [ImpersonateSelf] failed leaves the whole security context as it was. *)
Theorem spawn_ends_the_thread_impersonation (parentPID : Z) (exePath : string)
  (extraEnv : list string) (P : Platform) (h : history) (s : SecState) :
  let evs := calls_of (StartProcessAsChild parentPID exePath extraEnv) P h in
  (In (EvRevertToSelf None) evs -> impersonation (replay s evs) = None) /\
  (existsb is_ImpersonateSelf_ok evs = false -> replay s evs = s).
Proof.
  intros evs. subst evs.
  spawn_paths parentPID exePath extraEnv P h; cbn [app]; split;
    lazymatch goal with
    | |- In _ _ -> _ => intros Hin; in_cases Hin
    | |- existsb _ _ = false -> _ =>
        intros Hno; first [discriminate Hno | reflexivity]
    end.
  all: injection Hin; intros; subst;
    match goal with
    | |- impersonation (replay ?s ?l) = None =>
        let p := all_but_last_two l in
        change l with (p ++ [EvRevertToSelf None; EvUnlockOSThread]);
        unfold replay; rewrite fold_left_app; reflexivity
    end.
Qed.

Lemma spawn_ends_the_thread_impersonation_witness :
  impersonation
    (replay {| self := 700; ambient := []; impersonation := Some [];
               handles := [] |}
       (snd (spawn_on FailOpenProcess))) = None.
Proof.
  apply (proj1 (spawn_ends_the_thread_impersonation 4242 "C:\tailscale-ipn.exe"
                  ["C=3"%string] (machine FailOpenProcess) []
                  {| self := 700; ambient := []; impersonation := Some [];
                     handles := [] |})).
  vm_compute. tauto.
Defined.

(* ===================================================================== *)
(** ** More on the locator and the entry point *)
(* ===================================================================== *)

(** [GetDesktopPID] returns the process id zero exactly when it returns an
    error, and a process id it returns fits 32 bits.  It asks for the owner
    of a window only after the shell window was found: never of the window
    handle zero. *)
Theorem GetDesktopPID_returns_zero_iff_error (P : Platform) (h : history) :
  let r := result_of GetDesktopPID P h in
  let evs := calls_of GetDesktopPID P h in
  (snd r = None <-> fst r <> 0) /\
  0 <= fst r < 2 ^ 32 /\
  (forall hwnd pid,
     In (EvGetWindowThreadProcessId hwnd pid) evs ->
     hwnd <> 0 /\ hd_error evs = Some (EvGetShellWindow hwnd)).
Proof.
  intros r evs. subst r evs.
  pose proof (GDP_runs P h) as Hpath.
  destruct Hpath as [ | hwnd Hw | hwnd pid Hw Hp]; cbn [fst snd].
  all: split; [split | split].
  all: try lia; try (intros Hnil; discriminate Hnil); try congruence.
  all: try (intros hw p Hin; in_cases Hin; injection Hin; intros; subst;
            split; [assumption | reflexivity]).
  intros hw p Hin. in_cases Hin.
Qed.

Lemma GetDesktopPID_returns_zero_iff_error_witness :
  65552 <> 0 /\
  hd_error (calls_of GetDesktopPID (machine NoFault) [])
    = Some (EvGetShellWindow 65552).
Proof.
  apply (proj2 (proj2 (GetDesktopPID_returns_zero_iff_error (machine NoFault) []))
           65552 4242).
  vm_compute. tauto.
Defined.

(** Case analysis on the exit path of a [StartProcessAsCurrentGUIUser] run,
    down to the calls. *)
Ltac entry_paths exe X P h :=
  let Hpath := fresh "Hpath" in
  pose proof (SPGU_runs exe X P h) as Hpath;
  unfold result_of, calls_of in *;
  destruct (StartProcessAsCurrentGUIUser exe X P h) as [? ?];
  cbn [fst snd] in *;
  destruct Hpath;
  repeat match goal with
    | H : GDP_path _ _ |- _ => inversion H; subst; clear H
    | H : SPAC_path _ _ _ _ _ |- _ => inversion H; subst; clear H
    | H : ECTP_path _ _ _ |- _ => inversion H; subst; clear H
    | H : has_NUL SeDebugPrivilege = true |- _ => discriminate H
    end.

(** An error of [StartProcessAsCurrentGUIUser] is always a fresh error whose
    text is one of the two prefixes followed by the text of the cause: the
    cause itself is never returned, so the result is never [ErrNoShell], also
    when there is no shell. *)
Theorem entry_point_never_returns_the_cause (exePath : string)
  (extraEnv : list string) (P : Platform) (h : history) :
  let r := result_of (StartProcessAsCurrentGUIUser exePath extraEnv) P h in
  let evs := calls_of (StartProcessAsCurrentGUIUser exePath extraEnv) P h in
  r <> Some ErrNoShell /\
  (forall e, r = Some e ->
     exists cause,
       e = ErrorString (find_desktop_prefix ++ Error cause) \/
       e = ErrorString (start_executable_prefix ++ Error cause)) /\
  (In (EvGetShellWindow 0) evs ->
     r = Some (ErrorString
                 "failed to find desktop: no Shell process is present")).
Proof.
  intros r evs.
  assert (Hshell :
    In (EvGetShellWindow 0) evs ->
    r = Some (ErrorString
                "failed to find desktop: no Shell process is present")).
  { subst r evs.
    entry_paths exePath extraEnv P h; cbn [app]; intros Hin; in_cases Hin;
      try reflexivity;
      injection Hin; intros; subst; congruence. }
  split; [ | split; [ | exact Hshell]]; clear Hshell; subst r evs;
    pose proof (SPGU_runs exePath extraEnv P h) as Hpath;
    unfold result_of, calls_of in *;
    destruct (StartProcessAsCurrentGUIUser exePath extraEnv P h) as [r evs];
    cbn [fst snd] in *.
  - destruct Hpath; discriminate.
  - intros e' Hr.
    destruct Hpath as [pid e el _ | pid el e es _ _ | pid el es _ _];
      [ | | discriminate Hr];
      injection Hr as <-; exists e; [left | right]; reflexivity.
Qed.

Lemma entry_point_never_returns_the_cause_witness :
  result_of (StartProcessAsCurrentGUIUser "C:\tailscale-ipn.exe" [])
    (machine NoShellWindow) []
  = Some (ErrorString "failed to find desktop: no Shell process is present").
Proof.
  apply (proj2 (proj2 (entry_point_never_returns_the_cause
                  "C:\tailscale-ipn.exe" [] (machine NoShellWindow) []))).
  vm_compute. tauto.
Defined.

(** The process [StartProcessAsCurrentGUIUser] opens is the owner of the
    shell window as the locator reported it, a process id that is not zero
    and fits 32 bits; no other process is opened. *)
Theorem entry_point_opens_the_shell_owner (exePath : string)
  (extraEnv : list string) (P : Platform) (h : history)
  (access : Z) (inherit : bool) (pid : Z) (r : result Handle) :
  let evs := calls_of (StartProcessAsCurrentGUIUser exePath extraEnv) P h in
  In (EvOpenProcess access inherit pid r) evs ->
  0 < pid < 2 ^ 32 /\
  (count is_OpenProcess evs = 1)%nat /\
  exists hwnd rest,
    hwnd <> 0 /\
    evs = EvGetShellWindow hwnd :: EvGetWindowThreadProcessId hwnd pid :: rest.
Proof.
  intros evs. subst evs.
  entry_paths exePath extraEnv P h; cbn [app]; intros Hin; in_cases Hin;
    injection Hin; intros; subst;
    (split; [assumption | split; [reflexivity | ]]);
    eexists; eexists; (split; [eassumption | reflexivity]).
Qed.

Lemma entry_point_opens_the_shell_owner_witness :
  0 < 4242 < 2 ^ 32 /\
  (count is_OpenProcess
     (calls_of (StartProcessAsCurrentGUIUser "C:\tailscale-ipn.exe" [])
        (machine NoFault) []) = 1)%nat /\
  exists hwnd rest,
    hwnd <> 0 /\
    calls_of (StartProcessAsCurrentGUIUser "C:\tailscale-ipn.exe" [])
      (machine NoFault) [] =
    EvGetShellWindow hwnd :: EvGetWindowThreadProcessId hwnd 4242 :: rest.
Proof.
  apply (entry_point_opens_the_shell_owner "C:\tailscale-ipn.exe" []
           (machine NoFault) [] spawn_access false 4242 (Ok 288)).
  vm_compute. tauto.
Defined.

(** What holds of the spawner holds of the whole entry point: every handle a
    run of [StartProcessAsCurrentGUIUser] opens is closed when it returns,
    the thread lock is given back, the primary token of the process is
    untouched, and the run returns no error exactly when a process creation
    was asked for and accepted. *)
Theorem entry_point_gives_back_what_it_takes (exePath : string)
  (extraEnv : list string) (P : Platform) (h : history) :
  let r := result_of (StartProcessAsCurrentGUIUser exePath extraEnv) P h in
  let evs := calls_of (StartProcessAsCurrentGUIUser exePath extraEnv) P h in
  live_handles [] evs = Some [] /\
  lock_depth 0 evs = 0%nat /\
  (forall s, ambient (replay s evs) = ambient s) /\
  (r = None <-> exists cmd, In (EvCmdStart cmd None) evs).
Proof.
  intros r evs.
  assert (Hadj : forall s, adjusts_thread_token s evs = true).
  { intros s. subst r evs.
    entry_paths exePath extraEnv P h;
      repeat (progress (cbn; rewrite ?Z.eqb_refl)); reflexivity. }
  split; [ | split; [ | split]].
  - subst r evs. entry_paths exePath extraEnv P h;
      repeat (progress (cbn; rewrite ?Z.eqb_refl)); reflexivity.
  - subst r evs. entry_paths exePath extraEnv P h; reflexivity.
  - intros s. apply (adjusts_thread_token_frame evs s (Hadj s)).
  - clear Hadj. subst r evs.
    entry_paths exePath extraEnv P h; cbn [app]; split;
      try (intros Hnil; discriminate Hnil);
      try (intros (cmd' & Hin); in_cases Hin).
    + intros _. eexists. find_in.
    + reflexivity.
Qed.

Lemma entry_point_gives_back_what_it_takes_witness :
  result_of (StartProcessAsCurrentGUIUser "C:\tailscale-ipn.exe" [])
    (machine NoFault) [] = None.
Proof.
  apply (proj2 (proj2 (proj2 (entry_point_gives_back_what_it_takes
                  "C:\tailscale-ipn.exe" [] (machine NoFault) [])))).
  exists (spawn_cmd "C:\tailscale-ipn.exe" "C:\tailscale-ipn.exe"
            ["A=1"; "B=2"]%string 288).
  vm_compute. tauto.
Defined.

(* ===================================================================== *)
(** ** wgcfg: looking a peer up by its key *)
(* ===================================================================== *)

Lemma range_Peers_found {IPPrefix : Type} (peers : list (wgcfg.Peer IPPrefix))
  (k : wgcfg.key32) (p : wgcfg.Peer IPPrefix) :
  wgcfg.range_Peers peers k = (p, true) ->
  exists pre post,
    peers = pre ++ p :: post /\
    wgcfg.PublicKey p = k /\
    Forall (fun q => wgcfg.PublicKey q <> k) pre.
Proof.
  induction peers as [ | q peers IH]; cbn; intros Hr.
  - discriminate.
  - destruct (wgcfg.key32_eq_dec (wgcfg.PublicKey q) k) as [Hq | Hq].
    + injection Hr as <-. exists [], peers. repeat split; trivial.
    + destruct (IH Hr) as (pre & post & -> & Hk & Hpre).
      exists (q :: pre), post. repeat split; trivial.
      constructor; assumption.
Qed.

Lemma range_Peers_missing {IPPrefix : Type} (peers : list (wgcfg.Peer IPPrefix))
  (k : wgcfg.key32) :
  snd (wgcfg.range_Peers peers k) = false <->
  Forall (fun q => wgcfg.PublicKey q <> k) peers.
Proof.
  induction peers as [ | q peers IH]; cbn.
  - split; [constructor | reflexivity].
  - destruct (wgcfg.key32_eq_dec (wgcfg.PublicKey q) k) as [Hq | Hq]; cbn.
    + split; [discriminate | ]. intros Hall. inversion Hall; subst. congruence.
    + rewrite IH. split.
      * intros Hall. constructor; assumption.
      * intros Hall. inversion Hall; subst. assumption.
Qed.

(** [PeerWithKey] reports a peer exactly when some peer of the configuration
    has the key, and the peer it returns is then the first one, in the order
    of [Peers], that has it. *)
Theorem PeerWithKey_finds_the_first_peer_with_the_key {IPPrefix IP : Type}
  (config : wgcfg.Config IPPrefix IP) (k : wgcfg.key32) :
  (snd (wgcfg.PeerWithKey config k) = true <->
   exists q, In q (wgcfg.Peers config) /\ wgcfg.PublicKey q = k) /\
  (forall p,
     wgcfg.PeerWithKey config k = (p, true) ->
     exists pre post,
       wgcfg.Peers config = pre ++ p :: post /\
       wgcfg.PublicKey p = k /\
       Forall (fun q => wgcfg.PublicKey q <> k) pre).
Proof.
  unfold wgcfg.PeerWithKey. split.
  - pose proof (range_Peers_missing (wgcfg.Peers config) k) as Hmiss.
    destruct (wgcfg.range_Peers (wgcfg.Peers config) k) as [p found] eqn:Hr.
    cbn in *. destruct found; split.
    + intros _. destruct (range_Peers_found _ _ _ Hr) as (pre & post & Hs & Hk & _).
      exists p. split; [ | exact Hk]. rewrite Hs. apply in_elt.
    + reflexivity.
    + discriminate.
    + intros (q & Hin & Hk).
      pose proof (proj1 (Forall_forall _ _) (proj1 Hmiss eq_refl) q Hin) as Hne.
      contradiction.
  - intros p. apply range_Peers_found.
Qed.

Lemma PeerWithKey_finds_the_first_peer_with_the_key_witness :
  exists pre post,
    wgcfg.Peers wgcfg.two_peers = pre ++ wgcfg.peer_of Byte.x02 0 :: post /\
    wgcfg.PublicKey (wgcfg.peer_of Byte.x02 0) = wgcfg.key_of Byte.x02 /\
    Forall (fun q => wgcfg.PublicKey q <> wgcfg.key_of Byte.x02) pre.
Proof.
  apply (proj2 (PeerWithKey_finds_the_first_peer_with_the_key wgcfg.two_peers
                  (wgcfg.key_of Byte.x02)) (wgcfg.peer_of Byte.x02 0)).
  vm_compute. reflexivity.
Defined.

(** [PeerWithKey] reports no peer exactly when no peer of the configuration
    has the key, an empty configuration included, and what it returns beside
    [false] is the zero [Peer]. *)
Theorem PeerWithKey_of_an_unknown_key {IPPrefix IP : Type}
  (config : wgcfg.Config IPPrefix IP) (k : wgcfg.key32) :
  (snd (wgcfg.PeerWithKey config k) = false <->
   forall q, In q (wgcfg.Peers config) -> wgcfg.PublicKey q <> k) /\
  (snd (wgcfg.PeerWithKey config k) = false ->
   wgcfg.PeerWithKey config k = (wgcfg.zero_Peer, false)) /\
  (wgcfg.Peers config = [] ->
   wgcfg.PeerWithKey config k = (wgcfg.zero_Peer, false)).
Proof.
  unfold wgcfg.PeerWithKey. split; [ | split].
  - rewrite range_Peers_missing. apply Forall_forall.
  - generalize (wgcfg.Peers config). intros peers.
    induction peers as [ | q peers IH]; cbn.
    + reflexivity.
    + destruct (wgcfg.key32_eq_dec (wgcfg.PublicKey q) k); cbn.
      * discriminate.
      * exact IH.
  - intros ->. reflexivity.
Qed.

Lemma PeerWithKey_of_an_unknown_key_witness :
  wgcfg.PeerWithKey wgcfg.two_peers (wgcfg.key_of Byte.x03)
  = (wgcfg.zero_Peer, false).
Proof.
  apply (proj1 (proj2 (PeerWithKey_of_an_unknown_key wgcfg.two_peers
                  (wgcfg.key_of Byte.x03)))).
  vm_compute. reflexivity.
Defined.

(** In a configuration whose peers have distinct keys, looking a peer up by
    its own key gives back that very peer. *)
Theorem PeerWithKey_of_a_peer_own_key {IPPrefix IP : Type}
  (config : wgcfg.Config IPPrefix IP) (p : wgcfg.Peer IPPrefix) :
  NoDup (map wgcfg.PublicKey (wgcfg.Peers config)) ->
  In p (wgcfg.Peers config) ->
  wgcfg.PeerWithKey config (wgcfg.PublicKey p) = (p, true).
Proof.
  unfold wgcfg.PeerWithKey. generalize (wgcfg.Peers config). intros peers.
  induction peers as [ | q peers IH]; cbn; intros Hnd Hin.
  - contradiction.
  - inversion Hnd as [ | ? ? Hq Hnd']; subst.
    destruct Hin as [-> | Hin].
    + destruct (wgcfg.key32_eq_dec (wgcfg.PublicKey p) (wgcfg.PublicKey p));
        [reflexivity | congruence].
    + destruct (wgcfg.key32_eq_dec (wgcfg.PublicKey q) (wgcfg.PublicKey p))
        as [Heq | Hne].
      * exfalso. apply Hq. rewrite Heq. apply in_map. exact Hin.
      * apply IH; assumption.
Qed.

Lemma PeerWithKey_of_a_peer_own_key_witness :
  wgcfg.PeerWithKey wgcfg.two_peers (wgcfg.PublicKey (wgcfg.peer_of Byte.x02 0))
  = (wgcfg.peer_of Byte.x02 0, true).
Proof.
  apply (PeerWithKey_of_a_peer_own_key wgcfg.two_peers (wgcfg.peer_of Byte.x02 0)).
  - repeat constructor; cbn; intuition discriminate.
  - right. left. reflexivity.
Defined.

(* ===================================================================== *)
(** ** More on the security-identifier check *)
(* ===================================================================== *)

(** [isSIDValidPrincipal] asks the platform at most two things, in this
    order: to parse the string, then to look the parsed SID up on the local
    system.  A string that does not parse costs no account lookup, and the
    answer is then [false]. *)
Theorem isSIDValidPrincipal_looks_up_only_what_parses (uid : string)
  (P : Platform) (h : history) :
  let r := result_of (isSIDValidPrincipal uid) P h in
  let evs := calls_of (isSIDValidPrincipal uid) P h in
  (exists e, evs = [EvStringToSid uid (Err e)] /\ r = false) \/
  (exists sid acc,
     evs = [EvStringToSid uid (Ok sid); EvLookupAccount sid EmptyString acc] /\
     (r = true -> exists account domain ty,
        acc = Ok (account, domain, ty) /\ In ty principal_types)).
Proof.
  intros r evs. subst r evs.
  unfold isSIDValidPrincipal. unfold_prims. unfold_go. cbn.
  destruct (os_StringToSid P h uid) as [sid | e]; cbn.
  - right. rewrite !app_nil_r.
    destruct (os_LookupAccount P (h ++ [EvStringToSid uid (Ok sid)]) sid
                EmptyString) as [[[account domain] ty] | e]; cbn.
    + pose proof (principal_types_spec ty) as Hty.
      destruct ((ty =? SidTypeUser) || (ty =? SidTypeGroup)
                || (ty =? SidTypeDomain) || (ty =? SidTypeAlias)
                || (ty =? SidTypeWellKnownGroup) || (ty =? SidTypeComputer));
        cbn; eexists; eexists; (split; [reflexivity | ]); intros Ht.
      * exists account, domain, ty. split; [reflexivity | ].
        apply Hty. reflexivity.
      * discriminate Ht.
    + eexists. eexists. split; [reflexivity | discriminate].
  - left. exists e. split; reflexivity.
Qed.

Lemma isSIDValidPrincipal_looks_up_only_what_parses_witness :
  (exists e,
     calls_of (isSIDValidPrincipal "not a SID") (machine FailStringToSid) []
       = [EvStringToSid "not a SID" (Err e)] /\
     result_of (isSIDValidPrincipal "not a SID") (machine FailStringToSid) []
       = false) \/
  (exists sid acc,
     calls_of (isSIDValidPrincipal "not a SID") (machine FailStringToSid) []
       = [EvStringToSid "not a SID" (Ok sid);
          EvLookupAccount sid EmptyString acc] /\
     (result_of (isSIDValidPrincipal "not a SID") (machine FailStringToSid) []
        = true ->
      exists account domain ty,
        acc = Ok (account, domain, ty) /\ In ty principal_types)).
Proof.
  apply (isSIDValidPrincipal_looks_up_only_what_parses "not a SID"
           (machine FailStringToSid) []).
Defined.
